(** * bldc.c: interrupt-driven commutation loop of the dual hoverboard drive

    A shallow embedding of [bldc.c]: the offset calibration
    ([bldc_start_calibration], [calibration_func]), the run-time tick
    ([bldc_control]) and the interrupt entry point
    ([DMA1_Channel1_IRQHandler]).  The C globals become one record that
    every function takes and returns; what other translation units or the
    hardware write (ADC buffer, hall lines, [enable], targets, buzzer
    requests) is a per-tick input record.  Integers are [Z] with the
    wrap-around of their C type written out. *)

From Stdlib Require Import ZArith List Bool Lia.
Import ListNotations.
Open Scope Z_scope.

(** ** Fixed-width integers *)

Module CInt.

(** Conversion to an unsigned type of [w] bits. *)
Definition wrap (w : Z) (x : Z) : Z := x mod 2 ^ w.

Definition uint8_t  : Z -> Z := wrap 8.
Definition uint16_t : Z -> Z := wrap 16.
Definition uint32_t : Z -> Z := wrap 32.
Definition uint64_t : Z -> Z := wrap 64.

(** Conversion to a signed type of [w] bits (two's complement, as gcc
    defines it for ARM). *)
Definition swrap (w : Z) (x : Z) : Z :=
  let u := wrap w x in
  if u <? 2 ^ (w - 1) then u else u - 2 ^ w.

Definition int16_t : Z -> Z := swrap 16.
Definition int32_t : Z -> Z := swrap 32.

(** C truth value of an integer. *)
Definition truthy (x : Z) : bool := negb (x =? 0).

End CInt.
Import CInt.

(** ** Macros of defines.h *)

(** Modelled from the spec: the macro [ABS] of defines.h, a header that is
    not part of the sources at hand; the magnitude of its argument, computed
    in [int] ("compare the signed magnitude of the instantaneous DC-link
    current sample"). *)
Definition ABS (a : Z) : Z := if a <? 0 then - a else a.

(** Modelled from the spec: the macro [CLAMP] of defines.h, a header that is
    not part of the sources at hand ("clamp each to [margin, period -
    margin]", "values outside are clamped exactly to the boundary"); the
    upper bound is tested first. *)
Definition CLAMP (x low high : Z) : Z :=
  if x >? high then high else if x <? low then low else x.

(** ** Position decoder *)

(** [const uint8_t hall2pos[2][2][2]] *)
Definition hall2pos_table : list (list (list Z)) :=
  [ [ [ 6; 2 ];
      [ 4; 3 ] ];
    [ [ 0; 1 ];
      [ 5; 6 ] ] ].

(** [hall2pos[u][v][w]] for indices that are results of [!]. *)
Definition hall2pos (u v w : bool) : Z :=
  let ix (b : bool) : nat := if b then 1%nat else 0%nat in
  nth (ix w) (nth (ix v) (nth (ix u) hall2pos_table []) []) 0.

(** A hall line is active low: [!(PORT->IDR & PIN)]. *)
Definition hall_read (idr_and_pin : bool) : bool := negb idr_and_pin.

(** ** Data model *)

(** Inputs and outputs of the generated controller (BLDC_controller.h); the
    fields are the ones bldc.c reads or writes, plus the mechanical angle
    input that it leaves untouched. *)
Record ExtU := {
  b_motEna     : Z;   (* boolean_T *)
  z_ctrlModReq : Z;   (* uint8_T *)
  r_inpTgt     : Z;   (* int16_T *)
  b_hallA      : Z;   (* uint8_T *)
  b_hallB      : Z;
  b_hallC      : Z;
  i_phaAB      : Z;   (* int16_T *)
  i_phaBC      : Z;
  i_DCLink     : Z;
  a_mechAngle  : Z
}.

Record ExtY := {
  DC_phaA   : Z;      (* int16_T *)
  DC_phaB   : Z;
  DC_phaC   : Z;
  z_errCode : Z       (* uint8_T *)
}.

(** What bldc.c takes from headers that are not part of the sources at hand:
    the build configuration (config.h), two register masks of the device
    header, and the external collaborators (the generated controller with
    its parameter and work structures, and the low-pass filter of util.c). *)
Class Platform := {
  (* config.h *)
  CALIBRATION_SAMPLES    : Z;
  PWM_FREQ               : Z;
  I_DC_MAX               : Z;
  A2BIT_CONV             : Z;
  BAT_FILT_COEF          : Z;
  BAT_CELLS              : Z;
  BAT_CALIB_ADC          : Z;
  BAT_CALIB_REAL_VOLTAGE : Z;
  MOTOR_LEFT_ENA         : bool;     (* #ifdef MOTOR_LEFT_ENA *)
  MOTOR_RIGHT_ENA        : bool;     (* #ifdef MOTOR_RIGHT_ENA *)
  (* stm32f1xx *)
  TIM_BDTR_MOE           : Z;
  DMA_IFCR_CTCIF1        : Z;
  (* BLDC_controller.h *)
  FOC_CTRL               : Z;
  P                      : Type;     (* block parameters, rtP_Left / rtP_Right *)
  DW                     : Type;     (* block states, opaque to bldc.c *)
  z_ctrlTypSel           : P -> Z;
  BLDC_controller_step   : P -> ExtU -> DW -> ExtY -> DW * ExtY;
  (* util.h: filtLowPass32(u, coef, &y), as the new value of y *)
  filtLowPass32          : Z -> Z -> Z -> Z
}.

(** [adc_buf_t adc_buffer], refilled by DMA before every interrupt. *)
Record adc_buf_t := {
  dcr : Z; dcl : Z; rlA : Z; rlB : Z; rrB : Z; rrC : Z; batt1 : Z   (* uint16_t *)
}.

(** The six hall lines: whether [PORT->IDR & PIN] is non-zero. *)
Record hall_lines := {
  LEFT_HALL_U  : bool; LEFT_HALL_V  : bool; LEFT_HALL_W  : bool;
  RIGHT_HALL_U : bool; RIGHT_HALL_V : bool; RIGHT_HALL_W : bool
}.

(** The six offset accumulators. *)
Record Offsets := {
  offsetrlA : Z; offsetrlB : Z; offsetrrB : Z;
  offsetrrC : Z; offsetdcl : Z; offsetdcr : Z       (* uint32_t *)
}.

Record Currents := {
  curL_phaA : Z; curL_phaB : Z; curL_DC : Z;
  curR_phaB : Z; curR_phaC : Z; curR_DC : Z         (* int16_t *)
}.

(** [pos[2][2]] and [steps[2]]: [pos_m_0] is the current sector of motor
    [m], [pos_m_1] the one before. *)
Record HallTrack := {
  pos_0_0 : Z; pos_0_1 : Z; pos_1_0 : Z; pos_1_1 : Z;   (* uint8_t *)
  steps_0 : Z; steps_1 : Z                              (* uint16_t *)
}.

Record Buzzer := {
  buzzerTimer : Z;       (* uint32_t *)
  buzzerPrev  : Z;       (* uint8_t *)
  buzzerIdx   : Z;       (* uint8_t *)
  BUZZER_PIN  : bool     (* output level of the buzzer pin *)
}.

(** The registers of an advanced timer that bldc.c writes. *)
Record TIM := {
  BDTR  : Z;
  CCR_U : Z; CCR_V : Z; CCR_W : Z
}.

(** [typedef void ( *IsrPtr)()]: the functions of this file a handler
    variable can be bound to. *)
Inductive IsrPtr := isr_nullFunc | isr_calibration_func | isr_bldc_control.

(** The two drives: index 0 is the left motor, index 1 the right one. *)
Inductive motor := Left | Right.

Section Firmware.

Context {pf : Platform}.

(** One controller instance: inputs, outputs and block states. *)
Record RT_MODEL := {
  rtU  : ExtU;
  rtY  : ExtY;
  rtDW : DW
}.

(** What the rest of the firmware and the hardware present at a tick; the
    hall lines and the ADC buffer are taken to hold one value for the
    duration of an invocation. *)
Record inputs := {
  adc_buffer    : adc_buf_t;
  halls         : hall_lines;
  enable        : Z;     (* uint8_t *)
  pwml          : Z;     (* int *)
  pwmr          : Z;
  ctrlModReq    : Z;     (* uint8_t *)
  buzzerFreq    : Z;     (* uint8_t *)
  buzzerPattern : Z;
  buzzerCount   : Z;
  rtP_Left      : P;
  rtP_Right     : P
}.

(** The globals of bldc.c, the static [OverrunFlag] of the handler and
    the registers it drives. *)
Record bldc_state := {
  offsets         : Offsets;
  pwm_margin      : Z;        (* int16_t *)
  cur             : Currents;
  hall            : HallTrack;
  buzzer          : Buzzer;
  enableFin       : Z;        (* uint8_t *)
  mainCounter     : Z;        (* uint64_t *)
  batVoltage      : Z;        (* int16_t *)
  batVoltageFixdt : Z;        (* int32_t *)
  timer_brushless : IsrPtr;
  buzzerFunc      : IsrPtr;
  OverrunFlag     : bool;
  DMA1_IFCR       : Z;
  LEFT_TIM        : TIM;
  RIGHT_TIM       : TIM;
  rtM_Left        : RT_MODEL;
  rtM_Right       : RT_MODEL
}.

(** [static int16_t curDC_max = (I_DC_MAX * A2BIT_CONV)] *)
Definition curDC_max : Z := int16_t (I_DC_MAX * A2BIT_CONV).

(** [static const uint16_t pwm_res = 64000000 / 2 / PWM_FREQ] *)
Definition pwm_res : Z := uint16_t (64000000 / 2 / PWM_FREQ).

(** The decoded sector of each motor, from the three active-low lines. *)
Definition sector_left (i : inputs) : Z :=
  let hall_ul := hall_read (LEFT_HALL_U (halls i)) in
  let hall_vl := hall_read (LEFT_HALL_V (halls i)) in
  let hall_wl := hall_read (LEFT_HALL_W (halls i)) in
  hall2pos hall_ul hall_vl hall_wl.

Definition sector_right (i : inputs) : Z :=
  let hall_ur := hall_read (RIGHT_HALL_U (halls i)) in
  let hall_vr := hall_read (RIGHT_HALL_V (halls i)) in
  let hall_wr := hall_read (RIGHT_HALL_W (halls i)) in
  hall2pos hall_ur hall_vr hall_wr.

(** *** Field updates *)

Definition set_offsets (o : Offsets) (s : bldc_state) : bldc_state :=
  {| offsets := o; pwm_margin := pwm_margin s; cur := cur s; hall := hall s;
     buzzer := buzzer s; enableFin := enableFin s; mainCounter := mainCounter s;
     batVoltage := batVoltage s; batVoltageFixdt := batVoltageFixdt s;
     timer_brushless := timer_brushless s; buzzerFunc := buzzerFunc s;
     OverrunFlag := OverrunFlag s; DMA1_IFCR := DMA1_IFCR s;
     LEFT_TIM := LEFT_TIM s; RIGHT_TIM := RIGHT_TIM s;
     rtM_Left := rtM_Left s; rtM_Right := rtM_Right s |}.

Definition set_mainCounter (c : Z) (s : bldc_state) : bldc_state :=
  {| offsets := offsets s; pwm_margin := pwm_margin s; cur := cur s; hall := hall s;
     buzzer := buzzer s; enableFin := enableFin s; mainCounter := c;
     batVoltage := batVoltage s; batVoltageFixdt := batVoltageFixdt s;
     timer_brushless := timer_brushless s; buzzerFunc := buzzerFunc s;
     OverrunFlag := OverrunFlag s; DMA1_IFCR := DMA1_IFCR s;
     LEFT_TIM := LEFT_TIM s; RIGHT_TIM := RIGHT_TIM s;
     rtM_Left := rtM_Left s; rtM_Right := rtM_Right s |}.

Definition set_timer_brushless (f : IsrPtr) (s : bldc_state) : bldc_state :=
  {| offsets := offsets s; pwm_margin := pwm_margin s; cur := cur s; hall := hall s;
     buzzer := buzzer s; enableFin := enableFin s; mainCounter := mainCounter s;
     batVoltage := batVoltage s; batVoltageFixdt := batVoltageFixdt s;
     timer_brushless := f; buzzerFunc := buzzerFunc s;
     OverrunFlag := OverrunFlag s; DMA1_IFCR := DMA1_IFCR s;
     LEFT_TIM := LEFT_TIM s; RIGHT_TIM := RIGHT_TIM s;
     rtM_Left := rtM_Left s; rtM_Right := rtM_Right s |}.

Definition set_OverrunFlag (b : bool) (s : bldc_state) : bldc_state :=
  {| offsets := offsets s; pwm_margin := pwm_margin s; cur := cur s; hall := hall s;
     buzzer := buzzer s; enableFin := enableFin s; mainCounter := mainCounter s;
     batVoltage := batVoltage s; batVoltageFixdt := batVoltageFixdt s;
     timer_brushless := timer_brushless s; buzzerFunc := buzzerFunc s;
     OverrunFlag := b; DMA1_IFCR := DMA1_IFCR s;
     LEFT_TIM := LEFT_TIM s; RIGHT_TIM := RIGHT_TIM s;
     rtM_Left := rtM_Left s; rtM_Right := rtM_Right s |}.

Definition set_DMA1_IFCR (v : Z) (s : bldc_state) : bldc_state :=
  {| offsets := offsets s; pwm_margin := pwm_margin s; cur := cur s; hall := hall s;
     buzzer := buzzer s; enableFin := enableFin s; mainCounter := mainCounter s;
     batVoltage := batVoltage s; batVoltageFixdt := batVoltageFixdt s;
     timer_brushless := timer_brushless s; buzzerFunc := buzzerFunc s;
     OverrunFlag := OverrunFlag s; DMA1_IFCR := v;
     LEFT_TIM := LEFT_TIM s; RIGHT_TIM := RIGHT_TIM s;
     rtM_Left := rtM_Left s; rtM_Right := rtM_Right s |}.

Definition set_buzzer (b : Buzzer) (s : bldc_state) : bldc_state :=
  {| offsets := offsets s; pwm_margin := pwm_margin s; cur := cur s; hall := hall s;
     buzzer := b; enableFin := enableFin s; mainCounter := mainCounter s;
     batVoltage := batVoltage s; batVoltageFixdt := batVoltageFixdt s;
     timer_brushless := timer_brushless s; buzzerFunc := buzzerFunc s;
     OverrunFlag := OverrunFlag s; DMA1_IFCR := DMA1_IFCR s;
     LEFT_TIM := LEFT_TIM s; RIGHT_TIM := RIGHT_TIM s;
     rtM_Left := rtM_Left s; rtM_Right := rtM_Right s |}.

Definition set_batVoltage (v fixdt : Z) (s : bldc_state) : bldc_state :=
  {| offsets := offsets s; pwm_margin := pwm_margin s; cur := cur s; hall := hall s;
     buzzer := buzzer s; enableFin := enableFin s; mainCounter := mainCounter s;
     batVoltage := v; batVoltageFixdt := fixdt;
     timer_brushless := timer_brushless s; buzzerFunc := buzzerFunc s;
     OverrunFlag := OverrunFlag s; DMA1_IFCR := DMA1_IFCR s;
     LEFT_TIM := LEFT_TIM s; RIGHT_TIM := RIGHT_TIM s;
     rtM_Left := rtM_Left s; rtM_Right := rtM_Right s |}.

(** ** Calibration *)

(** [void bldc_start_calibration()] *)
Definition bldc_start_calibration (i : inputs) (s : bldc_state) : bldc_state :=
  let posl := sector_left i in
  let posr := sector_right i in
  {| mainCounter := 0;
     offsets := {| offsetrlA := 0; offsetrlB := 0; offsetrrB := 0;
                   offsetrrC := 0; offsetdcl := 0; offsetdcr := 0 |};
     hall := {| pos_0_0 := posl; pos_0_1 := posl;
                pos_1_0 := posr; pos_1_1 := posr;
                steps_0 := steps_0 (hall s); steps_1 := steps_1 (hall s) |};
     timer_brushless := isr_calibration_func;
     pwm_margin := pwm_margin s; cur := cur s; buzzer := buzzer s;
     enableFin := enableFin s;
     batVoltage := batVoltage s; batVoltageFixdt := batVoltageFixdt s;
     buzzerFunc := buzzerFunc s; OverrunFlag := OverrunFlag s;
     DMA1_IFCR := DMA1_IFCR s; LEFT_TIM := LEFT_TIM s; RIGHT_TIM := RIGHT_TIM s;
     rtM_Left := rtM_Left s; rtM_Right := rtM_Right s |}.

(** The six statements [offsetX += adc_buffer.X], in [uint32_t]. *)
Definition accumulate (a : adc_buf_t) (o : Offsets) : Offsets :=
  {| offsetrlA := uint32_t (offsetrlA o + rlA a);
     offsetrlB := uint32_t (offsetrlB o + rlB a);
     offsetrrB := uint32_t (offsetrrB o + rrB a);
     offsetrrC := uint32_t (offsetrrC o + rrC a);
     offsetdcl := uint32_t (offsetdcl o + dcl a);
     offsetdcr := uint32_t (offsetdcr o + dcr a) |}.

(** The six statements [offsetX /= CALIBRATION_SAMPLES]. *)
Definition average (o : Offsets) : Offsets :=
  {| offsetrlA := uint32_t (offsetrlA o / CALIBRATION_SAMPLES);
     offsetrlB := uint32_t (offsetrlB o / CALIBRATION_SAMPLES);
     offsetrrB := uint32_t (offsetrrB o / CALIBRATION_SAMPLES);
     offsetrrC := uint32_t (offsetrrC o / CALIBRATION_SAMPLES);
     offsetdcl := uint32_t (offsetdcl o / CALIBRATION_SAMPLES);
     offsetdcr := uint32_t (offsetdcr o / CALIBRATION_SAMPLES) |}.

(** [static void calibration_func()] *)
Definition calibration_func (i : inputs) (s : bldc_state) : bldc_state :=
  let current_posl := sector_left i in
  let current_posr := sector_right i in
  (* reset if motors are moving *)
  let s := if negb (current_posl =? pos_0_0 (hall s))
           then bldc_start_calibration i s else s in
  let s := if negb (current_posr =? pos_1_0 (hall s))
           then bldc_start_calibration i s else s in
  if mainCounter s <? CALIBRATION_SAMPLES then
    set_offsets (accumulate (adc_buffer i) (offsets s)) s
  else if mainCounter s =? CALIBRATION_SAMPLES then
    set_timer_brushless isr_bldc_control
      (set_offsets (average (accumulate (adc_buffer i) (offsets s))) s)
  else s.

(** ** Run-time control tick *)

(** Current chopping: the statement
    [if(ABS(cur_DC) > curDC_max || enable == 0) BDTR &= ~TIM_BDTR_MOE;
     else BDTR |= TIM_BDTR_MOE;] on a 32-bit register. *)
Definition chop (cur_DC ena bdtr : Z) : Z :=
  if (ABS cur_DC >? curDC_max) || (ena =? 0)
  then Z.land bdtr (uint32_t (Z.lnot TIM_BDTR_MOE))
  else Z.lor bdtr TIM_BDTR_MOE.

(** The sector bookkeeping of one motor,
    [if(current_pos != pos[m][0]){ if(current_pos != pos[m][1]) steps[m]++;
       pos[m][1] = pos[m][0]; pos[m][0] = current_pos; }],
    as the new [(pos[m][0], pos[m][1], steps[m])]. *)
Definition track_sector (current_pos p0 p1 st : Z) : Z * Z * Z :=
  if negb (current_pos =? p0) then
    (current_pos, p0, if negb (current_pos =? p1) then uint16_t (st + 1) else st)
  else (p0, p1, st).

(** Setting the inputs and stepping the controller; the call is compiled
    out when the motor is not built in, and the outputs then keep their
    previous values. *)
Definition controller_step (built : bool) (rtP : P) (u : ExtU) (m : RT_MODEL)
  : RT_MODEL :=
  if built then
    let (dw, y) := BLDC_controller_step rtP u (rtDW m) (rtY m) in
    {| rtU := u; rtY := y; rtDW := dw |}
  else {| rtU := u; rtY := rtY m; rtDW := rtDW m |}.

(** [(uint16_t)CLAMP(d + pwm_res / 2, pwm_margin, pwm_res-pwm_margin)] *)
Definition duty (d margin : Z) : Z :=
  uint16_t (CLAMP (d + pwm_res / 2) margin (pwm_res - margin)).

(** [void bldc_control(void)] *)
Definition bldc_control (i : inputs) (s : bldc_state) : bldc_state :=
  let a := adc_buffer i in
  let o := offsets s in
  (* Make sure to stop BOTH motors in case of an error *)
  let enableFin' :=
    Z.b2z (truthy (enable i)
           && negb (truthy (z_errCode (rtY (rtM_Left s))))
           && negb (truthy (z_errCode (rtY (rtM_Right s))))) in
  (* Get Left motor currents *)
  let curL_phaA' := int16_t (uint32_t (offsetrlA o - rlA a)) in
  let curL_phaB' := int16_t (uint32_t (offsetrlB o - rlB a)) in
  let curL_DC'   := int16_t (uint32_t (offsetdcl o - dcl a)) in
  (* Disable PWM when current limit is reached *)
  let LEFT_BDTR := chop curL_DC' (enable i) (BDTR (LEFT_TIM s)) in
  (* LEFT MOTOR *)
  let pwm_margin_l := if z_ctrlTypSel (rtP_Left i) =? FOC_CTRL then 110 else 0 in
  let hall_ul := hall_read (LEFT_HALL_U (halls i)) in
  let hall_vl := hall_read (LEFT_HALL_V (halls i)) in
  let hall_wl := hall_read (LEFT_HALL_W (halls i)) in
  let current_posl := hall2pos hall_ul hall_vl hall_wl in
  let '(pos00, pos01, steps0) :=
    track_sector current_posl (pos_0_0 (hall s)) (pos_0_1 (hall s))
                 (steps_0 (hall s)) in
  let rtU_Left :=
    {| b_motEna := enableFin';
       z_ctrlModReq := uint8_t (ctrlModReq i);
       r_inpTgt := int16_t (pwml i);
       b_hallA := Z.b2z hall_ul;
       b_hallB := Z.b2z hall_vl;
       b_hallC := Z.b2z hall_wl;
       i_phaAB := curL_phaA';
       i_phaBC := curL_phaB';
       i_DCLink := curL_DC';
       a_mechAngle := a_mechAngle (rtU (rtM_Left s)) |} in
  let rtM_Left' := controller_step MOTOR_LEFT_ENA (rtP_Left i) rtU_Left (rtM_Left s) in
  let ul := DC_phaA (rtY rtM_Left') in
  let vl := DC_phaB (rtY rtM_Left') in
  let wl := DC_phaC (rtY rtM_Left') in
  let LEFT_TIM' :=
    {| BDTR := LEFT_BDTR;
       CCR_U := duty ul pwm_margin_l;
       CCR_V := duty vl pwm_margin_l;
       CCR_W := duty wl pwm_margin_l |} in
  (* Get Right motor currents *)
  let curR_phaB' := int16_t (uint32_t (offsetrrB o - rrB a)) in
  let curR_phaC' := int16_t (uint32_t (offsetrrC o - rrC a)) in
  let curR_DC'   := int16_t (uint32_t (offsetdcr o - dcr a)) in
  let RIGHT_BDTR := chop curR_DC' (enable i) (BDTR (RIGHT_TIM s)) in
  (* RIGHT MOTOR *)
  let pwm_margin_r := if z_ctrlTypSel (rtP_Right i) =? FOC_CTRL then 110 else 0 in
  let hall_ur := hall_read (RIGHT_HALL_U (halls i)) in
  let hall_vr := hall_read (RIGHT_HALL_V (halls i)) in
  let hall_wr := hall_read (RIGHT_HALL_W (halls i)) in
  let current_posr := hall2pos hall_ur hall_vr hall_wr in
  let '(pos10, pos11, steps1) :=
    track_sector current_posr (pos_1_0 (hall s)) (pos_1_1 (hall s))
                 (steps_1 (hall s)) in
  let rtU_Right :=
    {| b_motEna := enableFin';
       z_ctrlModReq := uint8_t (ctrlModReq i);
       r_inpTgt := int16_t (pwmr i);
       b_hallA := Z.b2z hall_ur;
       b_hallB := Z.b2z hall_vr;
       b_hallC := Z.b2z hall_wr;
       i_phaAB := curR_phaB';
       i_phaBC := curR_phaC';
       i_DCLink := curR_DC';
       a_mechAngle := a_mechAngle (rtU (rtM_Right s)) |} in
  let rtM_Right' := controller_step MOTOR_RIGHT_ENA (rtP_Right i) rtU_Right (rtM_Right s) in
  let ur := DC_phaA (rtY rtM_Right') in
  let vr := DC_phaB (rtY rtM_Right') in
  let wr := DC_phaC (rtY rtM_Right') in
  let RIGHT_TIM' :=
    {| BDTR := RIGHT_BDTR;
       CCR_U := duty ur pwm_margin_r;
       CCR_V := duty vr pwm_margin_r;
       CCR_W := duty wr pwm_margin_r |} in
  {| enableFin := enableFin';
     cur := {| curL_phaA := curL_phaA'; curL_phaB := curL_phaB'; curL_DC := curL_DC';
               curR_phaB := curR_phaB'; curR_phaC := curR_phaC'; curR_DC := curR_DC' |};
     pwm_margin := pwm_margin_r;
     hall := {| pos_0_0 := pos00; pos_0_1 := pos01;
                pos_1_0 := pos10; pos_1_1 := pos11;
                steps_0 := steps0; steps_1 := steps1 |};
     LEFT_TIM := LEFT_TIM'; RIGHT_TIM := RIGHT_TIM';
     rtM_Left := rtM_Left'; rtM_Right := rtM_Right';
     offsets := offsets s; buzzer := buzzer s; mainCounter := mainCounter s;
     batVoltage := batVoltage s; batVoltageFixdt := batVoltageFixdt s;
     timer_brushless := timer_brushless s; buzzerFunc := buzzerFunc s;
     OverrunFlag := OverrunFlag s; DMA1_IFCR := DMA1_IFCR s |}.

(** ** Interrupt entry point *)

(** A call through a handler variable. *)
Definition call_isr (f : IsrPtr) (i : inputs) (s : bldc_state) : bldc_state :=
  match f with
  | isr_nullFunc => s
  | isr_calibration_func => calibration_func i s
  | isr_bldc_control => bldc_control i s
  end.

(** The square wave for the buzzer. *)
Definition buzzer_wave (i : inputs) (b : Buzzer) : Buzzer :=
  let t := uint32_t (buzzerTimer b + 1) in
  if truthy (buzzerFreq i) && ((t / 5000) mod (buzzerPattern i + 1) =? 0) then
    let '(prev, idx) :=
      if buzzerPrev b =? 0 then
        let idx := uint8_t (buzzerIdx b + 1) in
        (1, if idx >? buzzerCount i + 2 then 1 else idx)      (* pause 2 periods *)
      else (buzzerPrev b, buzzerIdx b) in
    let pin :=
      if (t mod buzzerFreq i =? 0) && ((idx <=? buzzerCount i) || (buzzerCount i =? 0))
      then negb (BUZZER_PIN b) else BUZZER_PIN b in
    {| buzzerTimer := t; buzzerPrev := prev; buzzerIdx := idx; BUZZER_PIN := pin |}
  else if truthy (buzzerPrev b) then
    {| buzzerTimer := t; buzzerPrev := 0; buzzerIdx := buzzerIdx b; BUZZER_PIN := false |}
  else
    {| buzzerTimer := t; buzzerPrev := buzzerPrev b; buzzerIdx := buzzerIdx b;
       BUZZER_PIN := BUZZER_PIN b |}.

(** [void DMA1_Channel1_IRQHandler()] *)
Definition DMA1_Channel1_IRQHandler (i : inputs) (s : bldc_state) : bldc_state :=
  let s := set_DMA1_IFCR DMA_IFCR_CTCIF1 s in
  let s := set_mainCounter (uint64_t (mainCounter s + 1)) s in
  (* Check for overrun *)
  if OverrunFlag s then s
  else
    let s := set_OverrunFlag true s in
    let s := call_isr (timer_brushless s) i s in
    (* Indicate task complete *)
    let s := set_OverrunFlag false s in
    let s := call_isr (buzzerFunc s) i s in
    let s := set_buzzer (buzzer_wave i (buzzer s)) s in
    if buzzerTimer (buzzer s) mod 1000 =? 0 then
      (* Filter battery voltage at a slower sampling rate *)
      let fixdt := filtLowPass32 (batt1 (adc_buffer i)) BAT_FILT_COEF (batVoltageFixdt s) in
      set_batVoltage (int16_t (Z.shiftr fixdt 16)) fixdt s
    else s.

(** A run of interrupts, one input record per tick, each handled to
    completion before the next one fires. *)
Fixpoint run_ticks (ins : list inputs) (s : bldc_state) : bldc_state :=
  match ins with
  | [] => s
  | i :: ins' => run_ticks ins' (DMA1_Channel1_IRQHandler i s)
  end.

(** ** Start-up values *)

(** The initialisers of the globals; registers and controller records start
    cleared, [dw0] is the controller's initial block state. *)
Definition power_on (dw0 : DW) : bldc_state :=
  let rtM0 :=
    {| rtU := {| b_motEna := 0; z_ctrlModReq := 0; r_inpTgt := 0;
                 b_hallA := 0; b_hallB := 0; b_hallC := 0;
                 i_phaAB := 0; i_phaBC := 0; i_DCLink := 0; a_mechAngle := 0 |};
       rtY := {| DC_phaA := 0; DC_phaB := 0; DC_phaC := 0; z_errCode := 0 |};
       rtDW := dw0 |} in
  let tim0 := {| BDTR := 0; CCR_U := 0; CCR_V := 0; CCR_W := 0 |} in
  let bat := 400 * BAT_CELLS * BAT_CALIB_ADC / BAT_CALIB_REAL_VOLTAGE in
  {| offsets := {| offsetrlA := 0; offsetrlB := 0; offsetrrB := 0;
                   offsetrrC := 0; offsetdcl := 0; offsetdcr := 0 |};
     pwm_margin := 0;
     cur := {| curL_phaA := 0; curL_phaB := 0; curL_DC := 0;
               curR_phaB := 0; curR_phaC := 0; curR_DC := 0 |};
     hall := {| pos_0_0 := 0; pos_0_1 := 0; pos_1_0 := 0; pos_1_1 := 0;
                steps_0 := 0; steps_1 := 0 |};
     buzzer := {| buzzerTimer := 0; buzzerPrev := 0; buzzerIdx := 0;
                  BUZZER_PIN := false |};
     enableFin := 0;
     mainCounter := 0;
     batVoltage := int16_t bat;
     batVoltageFixdt := int32_t (Z.shiftl bat 16);
     timer_brushless := isr_nullFunc;
     buzzerFunc := isr_nullFunc;
     OverrunFlag := false;
     DMA1_IFCR := 0;
     LEFT_TIM := tim0; RIGHT_TIM := tim0;
     rtM_Left := rtM0; rtM_Right := rtM0 |}.

(** ** Per-motor views, for statements that hold for either drive *)

Definition sector_of (m : motor) (i : inputs) : Z :=
  match m with Left => sector_left i | Right => sector_right i end.

Definition pos_cur (m : motor) (h : HallTrack) : Z :=
  match m with Left => pos_0_0 h | Right => pos_1_0 h end.

Definition pos_prev (m : motor) (h : HallTrack) : Z :=
  match m with Left => pos_0_1 h | Right => pos_1_1 h end.

Definition steps_of (m : motor) (h : HallTrack) : Z :=
  match m with Left => steps_0 h | Right => steps_1 h end.

Definition TIM_of (m : motor) (s : bldc_state) : TIM :=
  match m with Left => LEFT_TIM s | Right => RIGHT_TIM s end.

Definition rtM_of (m : motor) (s : bldc_state) : RT_MODEL :=
  match m with Left => rtM_Left s | Right => rtM_Right s end.

Definition rtP_of (m : motor) (i : inputs) : P :=
  match m with Left => rtP_Left i | Right => rtP_Right i end.

Definition built_in (m : motor) : bool :=
  match m with Left => MOTOR_LEFT_ENA | Right => MOTOR_RIGHT_ENA end.

(** The DC-link current of a motor as [bldc_control] computes it: stored
    offset minus raw sample, converted to [int16_t]. *)
Definition cur_DC_of (m : motor) (i : inputs) (s : bldc_state) : Z :=
  match m with
  | Left  => int16_t (uint32_t (offsetdcl (offsets s) - dcl (adc_buffer i)))
  | Right => int16_t (uint32_t (offsetdcr (offsets s) - dcr (adc_buffer i)))
  end.

(** The PWM margin that belongs to a motor's configured control type. *)
Definition margin_of (m : motor) (i : inputs) : Z :=
  if z_ctrlTypSel (rtP_of m i) =? FOC_CTRL then 110 else 0.

(** Whether the main-output-enable mask is set in a timer's BDTR. *)
Definition MOE_set (t : TIM) : bool := negb (Z.land (BDTR t) TIM_BDTR_MOE =? 0).

(** The fault gate as the spec words it: administrative enable and no fault
    code from either motor's previous controller step. *)
Definition fault_gate (i : inputs) (s : bldc_state) : bool :=
  negb (enable i =? 0)
  && (z_errCode (rtY (rtM_Left s)) =? 0)
  && (z_errCode (rtY (rtM_Right s)) =? 0).

(** Saturation into [[lo, hi]] as the spec words it. *)
Definition saturate (lo hi x : Z) : Z := Z.max lo (Z.min hi x).

(** All six accumulators at the same value. *)
Definition uniform (x : Z) : Offsets :=
  {| offsetrlA := x; offsetrlB := x; offsetrrB := x;
     offsetrrC := x; offsetdcl := x; offsetdcr := x |}.

(** A tick without motion relative to the sectors [bl], [br]. *)
Definition still (bl br : Z) (i : inputs) : Prop :=
  sector_left i = bl /\ sector_right i = br.

(** A motionless tick on which every raw channel reads [V]. *)
Definition steady (bl br V : Z) (i : inputs) : Prop :=
  still bl br i /\
  rlA (adc_buffer i) = V /\ rlB (adc_buffer i) = V /\
  rrB (adc_buffer i) = V /\ rrC (adc_buffer i) = V /\
  dcl (adc_buffer i) = V /\ dcr (adc_buffer i) = V.

(** Whether a tick's hall reading departs from the calibration baseline. *)
Definition moved (i : inputs) (s : bldc_state) : bool :=
  negb (sector_left i =? pos_0_0 (hall s)) || negb (sector_right i =? pos_1_0 (hall s)).

(** Whether an interrupt restarts calibration: the handler runs
    [calibration_func] and a sector has changed. *)
Definition restarts (i : inputs) (s : bldc_state) : bool :=
  negb (OverrunFlag s)
  && match timer_brushless s with isr_calibration_func => moved i s | _ => false end.

(** Calibration in progress between interrupts: the handler is bound to
    [calibration_func], no invocation is in flight, the baseline sectors are
    [bl] and [br], the tick counter reads [c] and the accumulators hold [o]. *)
Definition calibrating (bl br c : Z) (o : Offsets) (s : bldc_state) : Prop :=
  timer_brushless s = isr_calibration_func /\
  buzzerFunc s = isr_nullFunc /\
  OverrunFlag s = false /\
  pos_0_0 (hall s) = bl /\ pos_1_0 (hall s) = br /\
  mainCounter s = c /\
  offsets s = o.

(** Run-time control between interrupts, with the offsets [o]. *)
Definition controlling (o : Offsets) (s : bldc_state) : Prop :=
  timer_brushless s = isr_bldc_control /\
  buzzerFunc s = isr_nullFunc /\
  OverrunFlag s = false /\
  offsets s = o.

(** ** Further views, for statements about whole runs *)

(** An invocation that arrives while an earlier one still holds the guard;
    the earlier one then completes and releases the guard. *)
Definition dropped_tick (i : inputs) (s : bldc_state) : bldc_state :=
  set_OverrunFlag false (DMA1_Channel1_IRQHandler i (set_OverrunFlag true s)).

(** The sum of one raw channel over a run of ticks. *)
Definition channel_sum (f : adc_buf_t -> Z) (ins : list inputs) : Z :=
  fold_right (fun i acc => f (adc_buffer i) + acc) 0 ins.

(** Accumulators [o] plus the channel sums of a run, without wrap-around. *)
Definition add_sums (o : Offsets) (ins : list inputs) : Offsets :=
  {| offsetrlA := offsetrlA o + channel_sum rlA ins;
     offsetrlB := offsetrlB o + channel_sum rlB ins;
     offsetrrB := offsetrrB o + channel_sum rrB ins;
     offsetrrC := offsetrrC o + channel_sum rrC ins;
     offsetdcl := offsetdcl o + channel_sum dcl ins;
     offsetdcr := offsetdcr o + channel_sum dcr ins |}.

(** The truncated mean of every channel over a run, for the configured
    number of samples. *)
Definition sample_means (ins : list inputs) : Offsets :=
  {| offsetrlA := channel_sum rlA ins / CALIBRATION_SAMPLES;
     offsetrlB := channel_sum rlB ins / CALIBRATION_SAMPLES;
     offsetrrB := channel_sum rrB ins / CALIBRATION_SAMPLES;
     offsetrrC := channel_sum rrC ins / CALIBRATION_SAMPLES;
     offsetdcl := channel_sum dcl ins / CALIBRATION_SAMPLES;
     offsetdcr := channel_sum dcr ins / CALIBRATION_SAMPLES |}.

(** All six accumulators between 0 and [K]. *)
Definition offsets_within (K : Z) (o : Offsets) : Prop :=
  0 <= offsetrlA o <= K /\ 0 <= offsetrlB o <= K /\ 0 <= offsetrrB o <= K /\
  0 <= offsetrrC o <= K /\ 0 <= offsetdcl o <= K /\ 0 <= offsetdcr o <= K.

(** The six current channels of the ADC buffer hold [uint16_t] values. *)
Definition adc_uint16 (a : adc_buf_t) : Prop :=
  0 <= rlA a < 65536 /\ 0 <= rlB a < 65536 /\ 0 <= rrB a < 65536 /\
  0 <= rrC a < 65536 /\ 0 <= dcl a < 65536 /\ 0 <= dcr a < 65536.

(** A motionless tick with well-typed samples. *)
Definition sampled (bl br : Z) (i : inputs) : Prop :=
  still bl br i /\ adc_uint16 (adc_buffer i).

(** The battery reading is the integer part of the filter state. *)
Definition bat_coherent (s : bldc_state) : Prop :=
  batVoltage s = int16_t (Z.shiftr (batVoltageFixdt s) 16).

(** The requested target of a motor. *)
Definition target_of (m : motor) (i : inputs) : Z :=
  match m with Left => pwml i | Right => pwmr i end.

(** The raw phase and DC-link samples of a motor with their offsets, in the
    order (first phase, second phase, DC link). *)
Definition raw_of (m : motor) (a : adc_buf_t) : Z * Z * Z :=
  match m with
  | Left => (rlA a, rlB a, dcl a)
  | Right => (rrB a, rrC a, dcr a)
  end.

Definition offsets_of (m : motor) (o : Offsets) : Z * Z * Z :=
  match m with
  | Left => (offsetrlA o, offsetrlB o, offsetdcl o)
  | Right => (offsetrrB o, offsetrrC o, offsetdcr o)
  end.

(** The three currents of a motor as stored by [bldc_control]. *)
Definition cur_of (m : motor) (c : Currents) : Z * Z * Z :=
  match m with
  | Left => (curL_phaA c, curL_phaB c, curL_DC c)
  | Right => (curR_phaB c, curR_phaC c, curR_DC c)
  end.

(** A value that [int16_t] holds without wrap-around. *)
Definition in_int16 (x : Z) : Prop := - 32768 <= x <= 32767.

(** How many of the three hall inputs differ between two readings. *)
Definition lines_changed (u v w u' v' w' : bool) : nat :=
  ((if Bool.eqb u u' then 0 else 1) +
   (if Bool.eqb v v' then 0 else 1) +
   (if Bool.eqb w w' then 0 else 1))%nat.

(** What only the run-time tick writes: timer registers, controller
    instances, currents, the fault gate, the margin and the step counters. *)
Definition drive_state (s : bldc_state)
  : TIM * TIM * RT_MODEL * RT_MODEL * Currents * Z * Z * Z * Z :=
  (LEFT_TIM s, RIGHT_TIM s, rtM_Left s, rtM_Right s, cur s,
   enableFin s, pwm_margin s, steps_0 (hall s), steps_1 (hall s)).

(** The rest of an invocation that is not dropped, from the state [s2] in
    which the second handler call has returned: buzzer wave and battery
    filter. *)
Definition after_handlers (i : inputs) (s2 : bldc_state) : bldc_state :=
  let s3 := set_buzzer (buzzer_wave i (buzzer s2)) s2 in
  if buzzerTimer (buzzer s3) mod 1000 =? 0 then
    let fixdt := filtLowPass32 (batt1 (adc_buffer i)) BAT_FILT_COEF (batVoltageFixdt s3) in
    set_batVoltage (int16_t (Z.shiftr fixdt 16)) fixdt s3
  else s3.

(** ** An invocation interrupted by the next one

    The handler can be re-entered while an invocation is unfinished: the
    nested invocation finds [OverrunFlag] set and returns after counting the
    tick, and the unfinished invocation then goes on with the globals, the
    hall lines and the ADC buffer as they are by then. *)

(** Lines 130-144 of [calibration_func]: the hall reads and the restart
    checks. *)
Definition calibration_restart_check (i : inputs) (s : bldc_state) : bldc_state :=
  let current_posl := sector_left i in
  let current_posr := sector_right i in
  let s := if negb (current_posl =? pos_0_0 (hall s))
           then bldc_start_calibration i s else s in
  let s := if negb (current_posr =? pos_1_0 (hall s))
           then bldc_start_calibration i s else s in
  s.

(** Lines 146-169 of [calibration_func]: the tests of the tick counter,
    with the accumulation and the division they guard. *)
Definition calibration_count (i : inputs) (s : bldc_state) : bldc_state :=
  if mainCounter s <? CALIBRATION_SAMPLES then
    set_offsets (accumulate (adc_buffer i) (offsets s)) s
  else if mainCounter s =? CALIBRATION_SAMPLES then
    set_timer_brushless isr_bldc_control
      (set_offsets (average (accumulate (adc_buffer i) (offsets s))) s)
  else s.





(** Neighbours on the ring of the six sectors. *)
Definition adjacent_sectors (a b : Z) : Prop :=
  b = (a + 1) mod 6 \/ a = (b + 1) mod 6.

End Firmware.

(** ** A bench configuration *)

(** A stand-in controller: passes the target through as the phase A duty
    when enabled, and keeps whatever fault code it is holding. *)
Definition bench_step (p : Z) (u : ExtU) (dw : Z) (y : ExtY) : Z * ExtY :=
  let d := if b_motEna u =? 0 then 0 else r_inpTgt u in
  (dw + 1, {| DC_phaA := d; DC_phaB := - d; DC_phaC := 0; z_errCode := z_errCode y |}).

(** The stock settings with a short calibration of four samples. *)
Definition bench : Platform :=
  {| CALIBRATION_SAMPLES := 4;
     PWM_FREQ := 16000;
     I_DC_MAX := 17;
     A2BIT_CONV := 50;
     BAT_FILT_COEF := 655;
     BAT_CELLS := 10;
     BAT_CALIB_ADC := 1492;
     BAT_CALIB_REAL_VOLTAGE := 3970;
     MOTOR_LEFT_ENA := true;
     MOTOR_RIGHT_ENA := true;
     TIM_BDTR_MOE := 0x8000;
     DMA_IFCR_CTCIF1 := 0x2;
     FOC_CTRL := 2;
     P := Z;
     DW := Z;
     z_ctrlTypSel := fun p => p;
     BLDC_controller_step := bench_step;
     filtLowPass32 := fun u coef y => y |}.

(** Bench inputs: the six hall line levels, one value for every raw channel,
    the administrative enable and the left control type. *)
Definition bench_in (lu lv lw ru rv rw : bool) (V ena typ : Z) : @inputs bench :=
  @Build_inputs bench
    {| dcr := V; dcl := V; rlA := V; rlB := V; rrB := V; rrC := V; batt1 := 1500 |}
    {| LEFT_HALL_U := lu; LEFT_HALL_V := lv; LEFT_HALL_W := lw;
       RIGHT_HALL_U := ru; RIGHT_HALL_V := rv; RIGHT_HALL_W := rw |}
    ena          (* enable *)
    500          (* pwml *)
    (-2000)      (* pwmr *)
    1            (* ctrlModReq *)
    0 0 0        (* buzzerFreq, buzzerPattern, buzzerCount *)
    typ          (* rtP_Left *)
    0            (* rtP_Right *).

(** The bench at rest: lines (U,V,W) = (0,1,1) on both motors, 2000 counts
    on every channel. *)
Definition bench_rest : @inputs bench :=
  bench_in false true true false true true 2000 1 2.

(** The left rotor one sector further. *)
Definition bench_turned : @inputs bench :=
  bench_in false false true false true true 2000 1 2.

Definition bench_on : @bldc_state bench := @power_on bench 0.

(** Calibration just started on the bench. *)
Definition bench_cal0 : @bldc_state bench :=
  @bldc_start_calibration bench bench_rest bench_on.

(** Two and three calibration ticks later. *)
Definition bench_cal2 : @bldc_state bench :=
  @run_ticks bench [bench_rest; bench_rest] bench_cal0.

Definition bench_cal3 : @bldc_state bench :=
  @run_ticks bench [bench_rest; bench_rest; bench_rest] bench_cal0.

(** Calibration completed: the run-time tick is bound. *)
Definition bench_run : @bldc_state bench :=
  @run_ticks bench [bench_rest; bench_rest; bench_rest; bench_rest] bench_cal0.

(** The left controller reporting the fault code [e]. *)
Definition bench_left_fault (e : Z) (s : @bldc_state bench) : @bldc_state bench :=
  let m := rtM_Left s in
  let y := rtY m in
  {| rtM_Left := {| rtU := rtU m;
                    rtY := {| DC_phaA := DC_phaA y; DC_phaB := DC_phaB y;
                              DC_phaC := DC_phaC y; z_errCode := e |};
                    rtDW := rtDW m |};
     offsets := offsets s; pwm_margin := pwm_margin s; cur := cur s; hall := hall s;
     buzzer := buzzer s; enableFin := enableFin s; mainCounter := mainCounter s;
     batVoltage := batVoltage s; batVoltageFixdt := batVoltageFixdt s;
     timer_brushless := timer_brushless s; buzzerFunc := buzzerFunc s;
     OverrunFlag := OverrunFlag s; DMA1_IFCR := DMA1_IFCR s;
     LEFT_TIM := LEFT_TIM s; RIGHT_TIM := RIGHT_TIM s;
     rtM_Right := rtM_Right s |}.

(** The DC-link channels 850 counts under the calibrated offset, which is
    the bench's current ceiling. *)
Definition bench_at_ceiling : @inputs bench :=
  bench_in false true true false true true 1150 1 2.

(** The left timer with a dead time of 48 counts configured in BDTR. *)
Definition bench_dead_time (s : @bldc_state bench) : @bldc_state bench :=
  {| LEFT_TIM := {| BDTR := 0x8030; CCR_U := CCR_U (LEFT_TIM s);
                    CCR_V := CCR_V (LEFT_TIM s); CCR_W := CCR_W (LEFT_TIM s) |};
     offsets := offsets s; pwm_margin := pwm_margin s; cur := cur s; hall := hall s;
     buzzer := buzzer s; enableFin := enableFin s; mainCounter := mainCounter s;
     batVoltage := batVoltage s; batVoltageFixdt := batVoltageFixdt s;
     timer_brushless := timer_brushless s; buzzerFunc := buzzerFunc s;
     OverrunFlag := OverrunFlag s; DMA1_IFCR := DMA1_IFCR s;
     RIGHT_TIM := RIGHT_TIM s;
     rtM_Left := rtM_Left s; rtM_Right := rtM_Right s |}.

(** The bench at rest with a given level on every raw channel. *)
Definition bench_level (V : Z) : @inputs bench :=
  bench_in false true true false true true V 1 2.

(** The left rotor one sector further, with a given level on every raw
    channel. *)
Definition bench_turned_level (V : Z) : @inputs bench :=
  bench_in false false true false true true V 1 2.

(** The run-time phase after the left rotor has moved on by one sector. *)
Definition bench_stepped : @bldc_state bench :=
  @run_ticks bench [bench_turned] bench_run.

(** * Properties *)

(** ** Facts about the integer conversions and macros *)

Lemma wrap_range w x : 0 < w -> 0 <= wrap w x < 2 ^ w.
Proof.
  intros Hw. unfold wrap. apply Z.mod_pos_bound.
  apply Z.pow_pos_nonneg; lia.
Qed.

Lemma wrap_small w x : 0 <= x < 2 ^ w -> wrap w x = x.
Proof. intros H. unfold wrap. now apply Z.mod_small. Qed.

Lemma uint16_small x : 0 <= x < 65536 -> uint16_t x = x.
Proof. intros H. apply wrap_small. exact H. Qed.

Lemma uint32_small x : 0 <= x < 2 ^ 32 -> uint32_t x = x.
Proof. intros H. apply wrap_small. exact H. Qed.

Lemma uint64_small x : 0 <= x < 2 ^ 64 -> uint64_t x = x.
Proof. intros H. apply wrap_small. exact H. Qed.

(** An increment in [uint16_t] never gives the old value back. *)
Lemma uint16_succ_neq st : uint16_t (st + 1) <> st.
Proof.
  unfold uint16_t, wrap. change (2 ^ 16) with 65536. intros E.
  pose proof (Z.mod_pos_bound (st + 1) 65536 ltac:(lia)) as B.
  assert (H : (st + 1) mod 65536 = st mod 65536).
  { rewrite E. symmetry. apply Z.mod_small. lia. }
  rewrite <- Z.add_mod_idemp_l in H by lia.
  pose proof (Z.mod_pos_bound st 65536 ltac:(lia)) as B'.
  destruct (Z.eq_dec (st mod 65536) 65535) as [E1 | N1].
  - rewrite E1 in H. change ((65535 + 1) mod 65536) with 0 in H. lia.
  - rewrite Z.mod_small in H by lia. lia.
Qed.

Lemma ABS_abs a : ABS a = Z.abs a.
Proof. unfold ABS. destruct (a <? 0) eqn:E; [apply Z.ltb_lt in E | apply Z.ltb_ge in E]; lia. Qed.

(** With an ordered pair of bounds the macro is the usual saturation. *)
Lemma CLAMP_saturate x lo hi : lo <= hi -> CLAMP x lo hi = saturate lo hi x.
Proof.
  intros H. unfold CLAMP, saturate.
  destruct (x >? hi) eqn:E1; [apply Z.gtb_lt in E1; lia |].
  assert (x <= hi) by (rewrite Z.gtb_ltb in E1; apply Z.ltb_ge in E1; lia).
  destruct (x <? lo) eqn:E2; [apply Z.ltb_lt in E2 | apply Z.ltb_ge in E2]; lia.
Qed.

Lemma saturate_range x lo hi : lo <= hi -> lo <= saturate lo hi x <= hi.
Proof. unfold saturate. lia. Qed.

(** Clearing a mask in a 32-bit register leaves none of its bits. *)
Lemma land_clear_mask b m : Z.land (Z.land b (uint32_t (Z.lnot m))) m = 0.
Proof.
  apply Z.bits_inj'. intros n Hn.
  rewrite !Z.land_spec, Z.bits_0.
  unfold uint32_t, wrap.
  destruct (Z.testbit m n) eqn:Em; [| now rewrite Bool.andb_false_r].
  destruct (Z_lt_dec n 32) as [L | G].
  - rewrite Z.mod_pow2_bits_low by lia.
    rewrite Z.lnot_spec by lia. rewrite Em. simpl.
    now rewrite Bool.andb_false_r.
  - rewrite Z.mod_pow2_bits_high by lia.
    now rewrite Bool.andb_false_r.
Qed.

(** Setting a mask leaves all of its bits. *)
Lemma land_set_mask b m : Z.land (Z.lor b m) m = m.
Proof.
  apply Z.bits_inj'. intros n Hn.
  rewrite Z.land_spec, Z.lor_spec.
  destruct (Z.testbit b n), (Z.testbit m n); reflexivity.
Qed.

(** ** Position decoder *)

(** C3, as the table has it: every one of the eight hall combinations
    decodes to a defined value between 0 and 6; the six combinations a
    motor can produce decode to the sectors 0..5, and the two impossible
    ones (all lines equal) decode to the reserved value 6. *)
Theorem hall2pos_defined_and_reserved (u v w : bool) :
  0 <= hall2pos u v w <= 6 /\
  (hall2pos u v w = 6 <-> (u = v /\ v = w)) /\
  (0 <= hall2pos u v w < 6 <-> ~ (u = v /\ v = w)).
Proof.
  destruct u, v, w; cbn; repeat split; intros; try lia; try congruence;
    try tauto; intuition (try congruence; try lia).
Qed.

(** C3 as stated fails where all three hall inputs are low: the table
    gives 6, which is outside [0,6). *)
Lemma hall2pos_all_low_outside_sectors :
  ~ (0 <= hall2pos false false false < 6).
Proof. cbn. lia. Qed.

(** The six possible combinations are decoded one-to-one. *)
Lemma hall2pos_injective_on_valid (u v w u' v' w' : bool) :
  hall2pos u v w <> 6 ->
  hall2pos u v w = hall2pos u' v' w' ->
  (u, v, w) = (u', v', w').
Proof.
  destruct u, v, w, u', v', w'; cbn; intros; try reflexivity; lia.
Qed.

(** ** The run-time control tick *)

Section ControlTick.

Context {pf : Platform}.

Ltac open_control :=
  unfold bldc_control;
  repeat match goal with
         | |- context [track_sector ?a ?b ?c ?d] =>
             let E := fresh "Etrack" in
             destruct (track_sector a b c d) as [[? ?] ?] eqn:E
         end;
  cbn [rtM_Left rtM_Right LEFT_TIM RIGHT_TIM hall cur offsets enableFin
       timer_brushless buzzerFunc OverrunFlag mainCounter buzzer
       batVoltage batVoltageFixdt DMA1_IFCR pwm_margin].

Lemma rtU_controller_step b p u m : rtU (controller_step b p u m) = u.
Proof.
  unfold controller_step. destruct b; [| reflexivity].
  destruct (BLDC_controller_step p u (rtDW m) (rtY m)). reflexivity.
Qed.

(** What [bldc_control] leaves alone. *)
Lemma bldc_control_frame i s :
  offsets (bldc_control i s) = offsets s /\
  mainCounter (bldc_control i s) = mainCounter s /\
  timer_brushless (bldc_control i s) = timer_brushless s /\
  buzzerFunc (bldc_control i s) = buzzerFunc s /\
  OverrunFlag (bldc_control i s) = OverrunFlag s /\
  buzzer (bldc_control i s) = buzzer s.
Proof. open_control. repeat split. Qed.

Lemma bldc_control_rtM i s m :
  exists u,
    rtM_of m (bldc_control i s) = controller_step (built_in m) (rtP_of m i) u (rtM_of m s) /\
    b_motEna u =
      Z.b2z (truthy (enable i)
             && negb (truthy (z_errCode (rtY (rtM_Left s))))
             && negb (truthy (z_errCode (rtY (rtM_Right s))))) /\
    i_DCLink u = cur_DC_of m i s.
Proof.
  destruct m; open_control; cbn [rtM_of built_in rtP_of cur_DC_of];
    eexists; (split; [reflexivity | split; reflexivity]).
Qed.

Lemma bldc_control_TIM i s m :
  let s' := bldc_control i s in
  BDTR (TIM_of m s') = chop (cur_DC_of m i s) (enable i) (BDTR (TIM_of m s)) /\
  CCR_U (TIM_of m s') = duty (DC_phaA (rtY (rtM_of m s'))) (margin_of m i) /\
  CCR_V (TIM_of m s') = duty (DC_phaB (rtY (rtM_of m s'))) (margin_of m i) /\
  CCR_W (TIM_of m s') = duty (DC_phaC (rtY (rtM_of m s'))) (margin_of m i).
Proof.
  destruct m; open_control; cbv zeta; open_control;
    cbn [TIM_of rtM_of cur_DC_of BDTR CCR_U CCR_V CCR_W]; repeat split.
Qed.

Lemma bldc_control_hall i s m :
  let h := hall s in
  let h' := hall (bldc_control i s) in
  (pos_cur m h', pos_prev m h', steps_of m h') =
  track_sector (sector_of m i) (pos_cur m h) (pos_prev m h) (steps_of m h).
Proof.
  destruct m; cbv zeta;
    cbn [pos_cur pos_prev steps_of sector_of];
    unfold sector_left, sector_right; cbv zeta; open_control;
    cbn [pos_0_0 pos_0_1 pos_1_0 pos_1_1 steps_0 steps_1]; reflexivity.
Qed.

Lemma fault_gate_code i s :
  truthy (enable i)
  && negb (truthy (z_errCode (rtY (rtM_Left s))))
  && negb (truthy (z_errCode (rtY (rtM_Right s)))) = fault_gate i s.
Proof. unfold fault_gate, truthy. now rewrite !Bool.negb_involutive. Qed.

(** C1: on a control tick the controller of either motor is stepped with an
    input record whose enable is the fault gate: set only if the
    administrative enable is set and the fault codes left by the previous
    step of both motors are zero; a fault code on either motor clears the
    enable of both. *)
Theorem enable_is_fault_gate (i : inputs) (s : bldc_state) (m : motor) :
  let s' := bldc_control i s in
  rtM_of m s' =
    controller_step (built_in m) (rtP_of m i) (rtU (rtM_of m s')) (rtM_of m s) /\
  b_motEna (rtU (rtM_of m s')) = Z.b2z (fault_gate i s) /\
  (b_motEna (rtU (rtM_of m s')) <> 0 ->
     enable i <> 0 /\
     z_errCode (rtY (rtM_Left s)) = 0 /\ z_errCode (rtY (rtM_Right s)) = 0) /\
  (z_errCode (rtY (rtM_Left s)) <> 0 \/ z_errCode (rtY (rtM_Right s)) <> 0 ->
     b_motEna (rtU (rtM_of m s')) = 0).
Proof.
  cbv zeta.
  destruct (bldc_control_rtM i s m) as (u & Hm & Hena & _).
  rewrite fault_gate_code in Hena.
  rewrite Hm, rtU_controller_step, Hena.
  split; [reflexivity |].
  split; [reflexivity |].
  unfold fault_gate.
  destruct (enable i =? 0) eqn:Ee,
           (z_errCode (rtY (rtM_Left s)) =? 0) eqn:El,
           (z_errCode (rtY (rtM_Right s)) =? 0) eqn:Er;
    cbn; rewrite ?Z.eqb_eq, ?Z.eqb_neq in *;
    (split; [intros; try lia; repeat split; assumption
            | intros [H | H]; try reflexivity; contradiction]).
Qed.

(** C2: on a control tick the main-output-enable mask of either motor's
    timer is cleared exactly when the magnitude of that motor's
    offset-corrected DC-link current exceeds [curDC_max] or the
    administrative enable is 0, and set otherwise; at exactly the ceiling
    the output stays enabled, and a closed fault gate alone does not clear
    it. *)
Theorem current_protection_gate (i : inputs) (s : bldc_state) (m : motor) :
  TIM_BDTR_MOE <> 0 ->
  let s' := bldc_control i s in
  let c := cur_DC_of m i s in
  i_DCLink (rtU (rtM_of m s')) = c /\
  MOE_set (TIM_of m s') = negb ((Z.abs c >? curDC_max) || (enable i =? 0)) /\
  (Z.abs c = curDC_max -> enable i <> 0 -> MOE_set (TIM_of m s') = true) /\
  (fault_gate i s = false -> Z.abs c <= curDC_max -> enable i <> 0 ->
     MOE_set (TIM_of m s') = true).
Proof.
  intros Hmoe. cbv zeta.
  destruct (bldc_control_rtM i s m) as (u & Hm & _ & Hdc).
  destruct (bldc_control_TIM i s m) as (Hb & _).
  assert (Hset : MOE_set (TIM_of m (bldc_control i s)) =
                 negb ((Z.abs (cur_DC_of m i s) >? curDC_max) || (enable i =? 0))).
  { unfold MOE_set. rewrite Hb. unfold chop. rewrite ABS_abs.
    destruct ((Z.abs (cur_DC_of m i s) >? curDC_max) || (enable i =? 0)).
    - rewrite land_clear_mask. reflexivity.
    - rewrite land_set_mask. cbn. apply Bool.negb_true_iff.
      now apply Z.eqb_neq. }
  split; [now rewrite Hm, rtU_controller_step |].
  split; [exact Hset |].
  split.
  - intros Hc He. rewrite Hset, Hc.
    apply Z.eqb_neq in He. rewrite He.
    rewrite Z.gtb_ltb, Z.ltb_irrefl. reflexivity.
  - intros _ Hc He. rewrite Hset.
    apply Z.eqb_neq in He. rewrite He.
    rewrite Z.gtb_ltb. assert (E : (curDC_max <? Z.abs (cur_DC_of m i s)) = false)
      by (apply Z.ltb_ge; lia).
    rewrite E. reflexivity.
Qed.

Lemma track_sector_spec n c p st :
  let '(c', p', st') := track_sector n c p st in
  (st' = uint16_t (st + 1) <-> n <> c /\ n <> p) /\
  (st' = st <-> ~ (n <> c /\ n <> p)) /\
  (n <> c -> c' = n /\ p' = c) /\
  (n = c -> c' = c /\ p' = p).
Proof.
  unfold track_sector.
  pose proof (uint16_succ_neq st) as Hne.
  destruct (n =? c) eqn:Ec; [apply Z.eqb_eq in Ec | apply Z.eqb_neq in Ec]; cbn.
  - intuition congruence.
  - destruct (n =? p) eqn:Ep; [apply Z.eqb_eq in Ep | apply Z.eqb_neq in Ep]; cbn;
      intuition congruence.
Qed.

(** C4: on a control tick the step counter of either motor is incremented
    (in [uint16_t]) if and only if the decoded sector differs from both
    stored sectors, and the history is shifted exactly when the decoded
    sector differs from the current one; a bounce to the previous sector
    and back never counts, two fresh sectors in a row count twice. *)
Theorem step_counter_rule (i : inputs) (s : bldc_state) (m : motor) :
  let h := hall s in
  let h' := hall (bldc_control i s) in
  let n := sector_of m i in
  (steps_of m h' = uint16_t (steps_of m h + 1) <->
     n <> pos_cur m h /\ n <> pos_prev m h) /\
  (steps_of m h' = steps_of m h <-> ~ (n <> pos_cur m h /\ n <> pos_prev m h)) /\
  (n <> pos_cur m h -> pos_cur m h' = n /\ pos_prev m h' = pos_cur m h) /\
  (n = pos_cur m h -> pos_cur m h' = pos_cur m h /\ pos_prev m h' = pos_prev m h) /\
  (forall i2 : inputs,
     n = pos_prev m h -> sector_of m i2 = pos_cur m h ->
     steps_of m (hall (bldc_control i2 (bldc_control i s))) = steps_of m h) /\
  (forall i2 : inputs,
     n <> pos_cur m h -> n <> pos_prev m h ->
     sector_of m i2 <> n -> sector_of m i2 <> pos_cur m h ->
     steps_of m (hall (bldc_control i2 (bldc_control i s))) =
     uint16_t (uint16_t (steps_of m h + 1) + 1)).
Proof.
  cbv zeta.
  pose proof (bldc_control_hall i s m) as H1. cbv zeta in H1.
  pose proof (track_sector_spec (sector_of m i) (pos_cur m (hall s))
                (pos_prev m (hall s)) (steps_of m (hall s))) as S1.
  rewrite <- H1 in S1.
  destruct S1 as (Sinc & Skeep & Sshift & Sstay).
  repeat split; try (apply Sinc); try (apply Skeep); try (apply Sshift);
    try (apply Sstay); try tauto.
  - (* bounce *)
    intros i2 Hprev Hback.
    pose proof (bldc_control_hall i2 (bldc_control i s) m) as H2. cbv zeta in H2.
    pose proof (track_sector_spec (sector_of m i2)
                  (pos_cur m (hall (bldc_control i s)))
                  (pos_prev m (hall (bldc_control i s)))
                  (steps_of m (hall (bldc_control i s)))) as S2.
    rewrite <- H2 in S2. destruct S2 as (_ & Skeep2 & _ & _).
    destruct (Z.eq_dec (sector_of m i) (pos_cur m (hall s))) as [Eq | Ne].
    + destruct (Sstay Eq) as (Hc & Hp).
      transitivity (steps_of m (hall (bldc_control i s))).
      * apply Skeep2. rewrite Hc. tauto.
      * apply Skeep. tauto.
    + destruct (Sshift Ne) as (Hc & Hp).
      transitivity (steps_of m (hall (bldc_control i s))).
      * apply Skeep2. rewrite Hp. tauto.
      * apply Skeep. tauto.
  - (* rotation *)
    intros i2 Hc Hp H2c H2p.
    pose proof (bldc_control_hall i2 (bldc_control i s) m) as H2. cbv zeta in H2.
    pose proof (track_sector_spec (sector_of m i2)
                  (pos_cur m (hall (bldc_control i s)))
                  (pos_prev m (hall (bldc_control i s)))
                  (steps_of m (hall (bldc_control i s)))) as S2.
    rewrite <- H2 in S2. destruct S2 as (Sinc2 & _ & _ & _).
    destruct (Sshift Hc) as (Hc' & Hp').
    assert (E1 : steps_of m (hall (bldc_control i s)) = uint16_t (steps_of m (hall s) + 1))
      by (apply Sinc; tauto).
    rewrite <- E1. apply Sinc2. rewrite Hc', Hp'. tauto.
Qed.

Lemma margin_of_cases m i : margin_of m i = 110 \/ margin_of m i = 0.
Proof. unfold margin_of. destruct (_ =? _); auto. Qed.

Lemma pwm_res_range : 0 <= pwm_res < 65536.
Proof. unfold pwm_res. apply (wrap_range 16). lia. Qed.

Lemma duty_saturate d margin :
  0 <= margin -> 2 * margin <= pwm_res ->
  duty d margin = saturate margin (pwm_res - margin) (d + pwm_res / 2) /\
  margin <= duty d margin <= pwm_res - margin.
Proof.
  intros H0 H2. unfold duty.
  pose proof pwm_res_range as R.
  rewrite CLAMP_saturate by lia.
  assert (Hord : margin <= pwm_res - margin) by lia.
  pose proof (saturate_range (d + pwm_res / 2) margin (pwm_res - margin) Hord) as S.
  rewrite uint16_small by lia. split; [reflexivity | exact S].
Qed.

(** C5: on a control tick each of the three compare values written for a
    motor is the raw duty output plus half the PWM period, saturated into
    [margin, period - margin], with margin 110 for the FOC control type and
    0 otherwise; so every written value lies in that interval.  The period
    is assumed wide enough to hold the two margins. *)
Theorem pwm_compare_saturated (i : inputs) (s : bldc_state) (m : motor) :
  2 * 110 <= pwm_res ->
  let s' := bldc_control i s in
  let y := rtY (rtM_of m s') in
  let margin := if z_ctrlTypSel (rtP_of m i) =? FOC_CTRL then 110 else 0 in
  let lo := margin in
  let hi := pwm_res - margin in
  CCR_U (TIM_of m s') = saturate lo hi (DC_phaA y + pwm_res / 2) /\
  CCR_V (TIM_of m s') = saturate lo hi (DC_phaB y + pwm_res / 2) /\
  CCR_W (TIM_of m s') = saturate lo hi (DC_phaC y + pwm_res / 2) /\
  lo <= CCR_U (TIM_of m s') <= hi /\
  lo <= CCR_V (TIM_of m s') <= hi /\
  lo <= CCR_W (TIM_of m s') <= hi.
Proof.
  intros Hres. cbv zeta.
  destruct (bldc_control_TIM i s m) as (_ & HU & HV & HW).
  fold (margin_of m i).
  assert (H0 : 0 <= margin_of m i) by (destruct (margin_of_cases m i); lia).
  assert (H2 : 2 * margin_of m i <= pwm_res)
    by (pose proof pwm_res_range; destruct (margin_of_cases m i); lia).
  rewrite HU, HV, HW.
  destruct (duty_saturate (DC_phaA (rtY (rtM_of m (bldc_control i s)))) _ H0 H2) as (EU & RU).
  destruct (duty_saturate (DC_phaB (rtY (rtM_of m (bldc_control i s)))) _ H0 H2) as (EV & RV).
  destruct (duty_saturate (DC_phaC (rtY (rtM_of m (bldc_control i s)))) _ H0 H2) as (EW & RW).
  repeat split; try assumption; lia.
Qed.

End ControlTick.

(** ** The interrupt handler and the calibration phase *)

Section Interrupt.

Context {pf : Platform}.

Lemma run_ticks_app ins1 ins2 s :
  run_ticks (ins1 ++ ins2) s = run_ticks ins2 (run_ticks ins1 s).
Proof. revert s. induction ins1 as [| i ins1 IH]; intros s; cbn; [reflexivity | apply IH]. Qed.

(** An invocation that finds the guard set only acknowledges the interrupt
    and counts the tick. *)
Lemma IRQ_overrun i s :
  OverrunFlag s = true ->
  DMA1_Channel1_IRQHandler i s = set_mainCounter (uint64_t (mainCounter s + 1))
              (set_DMA1_IFCR DMA_IFCR_CTCIF1 s).
Proof. intros H. unfold DMA1_Channel1_IRQHandler. cbn. now rewrite H. Qed.

(** Neither handler touches the guard, the handler bound to the buzzer or
    the buzzer itself. *)
Lemma call_isr_frame f i s :
  buzzerFunc (call_isr f i s) = buzzerFunc s /\
  OverrunFlag (call_isr f i s) = OverrunFlag s.
Proof.
  destruct f; cbn [call_isr].
  - split; reflexivity.
  - unfold calibration_func.
    repeat match goal with |- context [if ?b then _ else _] => destruct b end;
      split; reflexivity.
  - pose proof (bldc_control_frame i s). tauto.
Qed.

(** The part of an invocation that is not dropped which matters for
    calibration: the bound handler runs on the state with the tick counted;
    the buzzer and battery code after it leaves these fields alone. *)
Lemma IRQ_dispatch i s :
  OverrunFlag s = false -> buzzerFunc s = isr_nullFunc ->
  let s1 := call_isr (timer_brushless s) i
              (set_OverrunFlag true
                 (set_mainCounter (uint64_t (mainCounter s + 1))
                    (set_DMA1_IFCR DMA_IFCR_CTCIF1 s))) in
  let s' := DMA1_Channel1_IRQHandler i s in
  offsets s' = offsets s1 /\ mainCounter s' = mainCounter s1 /\
  hall s' = hall s1 /\ timer_brushless s' = timer_brushless s1 /\
  buzzerFunc s' = isr_nullFunc /\ OverrunFlag s' = false.
Proof.
  intros Hov Hbz. cbv zeta. unfold DMA1_Channel1_IRQHandler. cbv zeta.
  change (OverrunFlag (set_mainCounter (uint64_t (mainCounter (set_DMA1_IFCR DMA_IFCR_CTCIF1 s) + 1))
                         (set_DMA1_IFCR DMA_IFCR_CTCIF1 s)))
    with (OverrunFlag s).
  rewrite Hov.
  change (mainCounter (set_DMA1_IFCR DMA_IFCR_CTCIF1 s)) with (mainCounter s).
  change (timer_brushless
            (set_OverrunFlag true
               (set_mainCounter (uint64_t (mainCounter s + 1))
                  (set_DMA1_IFCR DMA_IFCR_CTCIF1 s))))
    with (timer_brushless s).
  set (s1 := call_isr (timer_brushless s) i _).
  assert (Hb1 : buzzerFunc s1 = isr_nullFunc).
  { subst s1. destruct (call_isr_frame (timer_brushless s) i
      (set_OverrunFlag true
         (set_mainCounter (uint64_t (mainCounter s + 1))
            (set_DMA1_IFCR DMA_IFCR_CTCIF1 s)))) as (E & _).
    rewrite E. exact Hbz. }
  change (buzzerFunc (set_OverrunFlag false s1)) with (buzzerFunc s1).
  rewrite Hb1. cbn [call_isr].
  match goal with |- context [if ?b then _ else _] => destruct b end;
    cbn; repeat split; assumption.
Qed.

(** Two invocations that are not dropped and whose bound handler returns
    the same state end in the same state. *)
Lemma IRQ_cong i sA sB :
  OverrunFlag sA = false -> OverrunFlag sB = false ->
  call_isr (timer_brushless sA) i
    (set_OverrunFlag true
       (set_mainCounter (uint64_t (mainCounter sA + 1))
          (set_DMA1_IFCR DMA_IFCR_CTCIF1 sA))) =
  call_isr (timer_brushless sB) i
    (set_OverrunFlag true
       (set_mainCounter (uint64_t (mainCounter sB + 1))
          (set_DMA1_IFCR DMA_IFCR_CTCIF1 sB))) ->
  DMA1_Channel1_IRQHandler i sA = DMA1_Channel1_IRQHandler i sB.
Proof.
  intros HA HB E. unfold DMA1_Channel1_IRQHandler. cbv zeta.
  change (OverrunFlag (set_mainCounter (uint64_t (mainCounter (set_DMA1_IFCR DMA_IFCR_CTCIF1 sA) + 1))
                         (set_DMA1_IFCR DMA_IFCR_CTCIF1 sA)))
    with (OverrunFlag sA).
  change (OverrunFlag (set_mainCounter (uint64_t (mainCounter (set_DMA1_IFCR DMA_IFCR_CTCIF1 sB) + 1))
                         (set_DMA1_IFCR DMA_IFCR_CTCIF1 sB)))
    with (OverrunFlag sB).
  rewrite HA, HB.
  change (mainCounter (set_DMA1_IFCR DMA_IFCR_CTCIF1 sA)) with (mainCounter sA).
  change (mainCounter (set_DMA1_IFCR DMA_IFCR_CTCIF1 sB)) with (mainCounter sB).
  change (timer_brushless
            (set_OverrunFlag true
               (set_mainCounter (uint64_t (mainCounter sA + 1))
                  (set_DMA1_IFCR DMA_IFCR_CTCIF1 sA))))
    with (timer_brushless sA).
  change (timer_brushless
            (set_OverrunFlag true
               (set_mainCounter (uint64_t (mainCounter sB + 1))
                  (set_DMA1_IFCR DMA_IFCR_CTCIF1 sB))))
    with (timer_brushless sB).
  rewrite E. reflexivity.
Qed.

(** *** One call of [calibration_func] *)

Lemma calibration_func_still i s :
  moved i s = false ->
  calibration_func i s =
    if mainCounter s <? CALIBRATION_SAMPLES then
      set_offsets (accumulate (adc_buffer i) (offsets s)) s
    else if mainCounter s =? CALIBRATION_SAMPLES then
      set_timer_brushless isr_bldc_control
        (set_offsets (average (accumulate (adc_buffer i) (offsets s))) s)
    else s.
Proof.
  unfold moved. intros H. apply Bool.orb_false_iff in H. destruct H as (Hl & Hr).
  unfold calibration_func. cbv zeta. rewrite Hl. rewrite Hr. reflexivity.
Qed.

Lemma moved_after_restart i s : moved i (bldc_start_calibration i s) = false.
Proof. unfold moved, bldc_start_calibration. cbn. now rewrite !Z.eqb_refl. Qed.

(** With a sector changed, the call behaves as on the freshly restarted
    state. *)
Lemma calibration_func_moved i s :
  moved i s = true ->
  calibration_func i s = calibration_func i (bldc_start_calibration i s).
Proof.
  intros Hm.
  pose proof (moved_after_restart i s) as Hr.
  rewrite (calibration_func_still i (bldc_start_calibration i s) Hr).
  unfold moved in Hm, Hr. apply Bool.orb_false_iff in Hr. destruct Hr as (Hrl & Hrr).
  unfold calibration_func. cbv zeta.
  destruct (negb (sector_left i =? pos_0_0 (hall s))) eqn:El.
  - rewrite Hrr. reflexivity.
  - cbn [orb] in Hm. rewrite Hm. reflexivity.
Qed.

Lemma calibration_func_mainCounter i s :
  mainCounter (calibration_func i s) = if moved i s then 0 else mainCounter s.
Proof.
  destruct (moved i s) eqn:Hm.
  - rewrite calibration_func_moved by exact Hm.
    rewrite calibration_func_still by apply moved_after_restart.
    repeat match goal with |- context [if ?b then _ else _] => destruct b end;
      reflexivity.
  - rewrite calibration_func_still by exact Hm.
    repeat match goal with |- context [if ?b then _ else _] => destruct b end;
      reflexivity.
Qed.

(** *** One interrupt during calibration, without motion *)

Lemma IRQ_calibrating_still i s bl br c o :
  calibrating bl br c o s -> still bl br i ->
  0 <= c -> c + 1 < 2 ^ 64 ->
  let s' := DMA1_Channel1_IRQHandler i s in
  buzzerFunc s' = isr_nullFunc /\ OverrunFlag s' = false /\
  hall s' = hall s /\ mainCounter s' = c + 1 /\
  (c + 1 < CALIBRATION_SAMPLES ->
     offsets s' = accumulate (adc_buffer i) o /\
     timer_brushless s' = isr_calibration_func) /\
  (c + 1 = CALIBRATION_SAMPLES ->
     offsets s' = average (accumulate (adc_buffer i) o) /\
     timer_brushless s' = isr_bldc_control) /\
  (CALIBRATION_SAMPLES < c + 1 ->
     offsets s' = o /\ timer_brushless s' = isr_calibration_func).
Proof.
  intros (Ht & Hb & Hov & Hl & Hr & Hc & Ho) (Sl & Sr) Hc0 Hc64. cbv zeta.
  destruct (IRQ_dispatch i s Hov Hb) as (Eo & Em & Eh & Et & Eb & Ef).
  rewrite Eo, Em, Eh, Et, Eb, Ef. clear Eo Em Eh Et Eb Ef.
  rewrite Ht. cbn [call_isr].
  rewrite calibration_func_still.
  2:{ unfold moved. cbn [hall set_OverrunFlag set_mainCounter set_DMA1_IFCR].
      rewrite Sl, Sr, Hl, Hr, !Z.eqb_refl. reflexivity. }
  cbn [mainCounter offsets set_OverrunFlag set_mainCounter set_DMA1_IFCR].
  rewrite Hc, Ho. rewrite uint64_small by lia.
  split; [reflexivity |]. split; [reflexivity |].
  destruct (c + 1 <? CALIBRATION_SAMPLES) eqn:E1;
    [apply Z.ltb_lt in E1 | apply Z.ltb_ge in E1].
  - cbn. repeat split; intros; try lia; try reflexivity; try assumption.
  - destruct (c + 1 =? CALIBRATION_SAMPLES) eqn:E2;
      [apply Z.eqb_eq in E2 | apply Z.eqb_neq in E2];
      cbn; repeat split; intros; try lia; try reflexivity; try assumption.
Qed.

(** *** Overrun *)

(** C8, as the handler has it: an invocation that finds the overrun guard
    set acknowledges the interrupt, counts the tick and returns; the
    offsets, sector history, step counters, timer registers, buzzer state,
    battery filter and both handler bindings are left as they were.  The
    tick counter is not among the things left unchanged. *)
Theorem overrun_tick_frame (i : inputs) (s : bldc_state) :
  OverrunFlag s = true ->
  let s' := DMA1_Channel1_IRQHandler i s in
  mainCounter s' = uint64_t (mainCounter s + 1) /\
  DMA1_IFCR s' = DMA_IFCR_CTCIF1 /\
  offsets s' = offsets s /\
  hall s' = hall s /\
  LEFT_TIM s' = LEFT_TIM s /\ RIGHT_TIM s' = RIGHT_TIM s /\
  buzzer s' = buzzer s /\
  batVoltage s' = batVoltage s /\ batVoltageFixdt s' = batVoltageFixdt s /\
  timer_brushless s' = timer_brushless s /\ buzzerFunc s' = buzzerFunc s /\
  cur s' = cur s /\ enableFin s' = enableFin s /\ pwm_margin s' = pwm_margin s /\
  rtM_Left s' = rtM_Left s /\ rtM_Right s' = rtM_Right s /\
  OverrunFlag s' = true.
Proof.
  intros Hov. cbv zeta. rewrite (IRQ_overrun i s Hov). cbn.
  repeat split. exact Hov.
Qed.

(** *** Tick counter *)

(** C9, as the handler has it: every invocation increments the 64-bit tick
    counter once (modulo 2^64), also when the overrun guard makes it return
    early; the counter after the invocation is that incremented value,
    except on a calibration tick that sees a sector change, which leaves
    it at 0.  Without such a restart and below 2^64 - 1 the counter grows
    by exactly one. *)
Theorem tick_counter_step (i : inputs) (s : bldc_state) :
  buzzerFunc s = isr_nullFunc ->
  let s' := DMA1_Channel1_IRQHandler i s in
  mainCounter s' = (if restarts i s then 0 else uint64_t (mainCounter s + 1)) /\
  (OverrunFlag s = true -> mainCounter s' = uint64_t (mainCounter s + 1)) /\
  (restarts i s = false -> 0 <= mainCounter s -> mainCounter s + 1 < 2 ^ 64 ->
     mainCounter s' = mainCounter s + 1).
Proof.
  intros Hb. cbv zeta.
  assert (Hmain : mainCounter (DMA1_Channel1_IRQHandler i s) =
                  if restarts i s then 0 else uint64_t (mainCounter s + 1)).
  { unfold restarts. destruct (OverrunFlag s) eqn:Hov.
    - rewrite (IRQ_overrun i s Hov). reflexivity.
    - destruct (IRQ_dispatch i s Hov Hb) as (_ & Em & _). rewrite Em. clear Em.
      cbn [negb andb].
      destruct (timer_brushless s); cbn [call_isr].
      + reflexivity.
      + rewrite calibration_func_mainCounter. reflexivity.
      + pose proof (bldc_control_frame i
          (set_OverrunFlag true
             (set_mainCounter (uint64_t (mainCounter s + 1))
                (set_DMA1_IFCR DMA_IFCR_CTCIF1 s)))) as (_ & E & _).
        rewrite E. reflexivity. }
  split; [exact Hmain |]. split.
  - intros Hov. rewrite Hmain. unfold restarts. rewrite Hov. reflexivity.
  - intros Hr H0 H64. rewrite Hmain, Hr. apply uint64_small. lia.
Qed.

(** *** Calibration on constant input *)

Lemma accumulate_uniform a X V :
  rlA a = V -> rlB a = V -> rrB a = V -> rrC a = V -> dcl a = V -> dcr a = V ->
  0 <= X + V < 2 ^ 32 ->
  accumulate a (uniform X) = uniform (X + V).
Proof.
  intros H1 H2 H3 H4 H5 H6 H. unfold accumulate, uniform. cbn.
  rewrite H1, H2, H3, H4, H5, H6.
  rewrite !uint32_small by exact H. reflexivity.
Qed.

Lemma average_uniform X :
  0 < CALIBRATION_SAMPLES -> 0 <= X < 2 ^ 32 ->
  average (uniform X) = uniform (X / CALIBRATION_SAMPLES).
Proof.
  intros HN HX. unfold average, uniform. cbn.
  assert (H : 0 <= X / CALIBRATION_SAMPLES < 2 ^ 32).
  { split; [apply Z.div_pos; lia |].
    apply Z.le_lt_trans with X; [| lia].
    apply Z.div_le_upper_bound; [lia | nia]. }
  rewrite !uint32_small by exact H. reflexivity.
Qed.

Lemma calibrating_after_start i0 s :
  buzzerFunc s = isr_nullFunc -> OverrunFlag s = false ->
  calibrating (sector_left i0) (sector_right i0) 0 (uniform 0)
    (bldc_start_calibration i0 s).
Proof. intros Hb Hov. unfold calibrating, bldc_start_calibration. cbn. tauto. Qed.

(** While the counter stays below the target every motionless tick adds
    one sample. *)
Lemma run_accumulate bl br V ins :
  forall s c X,
    calibrating bl br c (uniform X) s ->
    Forall (steady bl br V) ins ->
    0 <= c -> c + Z.of_nat (length ins) < CALIBRATION_SAMPLES ->
    CALIBRATION_SAMPLES < 2 ^ 64 ->
    0 <= X -> 0 <= V -> X + Z.of_nat (length ins) * V < 2 ^ 32 ->
    calibrating bl br (c + Z.of_nat (length ins))
      (uniform (X + Z.of_nat (length ins) * V)) (run_ticks ins s).
Proof.
  induction ins as [| i ins IH]; intros s c X Hcal Hall Hc HcN HN HX HV HXV.
  - cbn. rewrite Z.add_0_r. replace (X + 0) with X by lia. exact Hcal.
  - inversion Hall as [| ? ? Hi Hrest]; subst.
    cbn [length run_ticks] in *. rewrite Nat2Z.inj_succ in *.
    destruct Hi as (Hstill & HA & HB & HC & HD & HE & HF).
    destruct (IRQ_calibrating_still i s bl br c (uniform X) Hcal Hstill Hc ltac:(lia))
      as (Eb & Ef & Eh & Em & Hacc & _ & _).
    destruct (Hacc ltac:(lia)) as (Eo & Et).
    rewrite (accumulate_uniform _ X V HA HB HC HD HE HF) in Eo by nia.
    assert (Hcal' : calibrating bl br (c + 1) (uniform (X + V))
                      (DMA1_Channel1_IRQHandler i s)).
    { destruct Hcal as (_ & _ & _ & Hl & Hr & _ & _).
      unfold calibrating. rewrite Eh. tauto. }
    specialize (IH _ _ _ Hcal' Hrest ltac:(lia) ltac:(lia) HN ltac:(lia) HV ltac:(nia)).
    replace (c + Z.succ (Z.of_nat (length ins)))
      with (c + 1 + Z.of_nat (length ins)) by lia.
    replace (X + Z.succ (Z.of_nat (length ins)) * V)
      with (X + V + Z.of_nat (length ins) * V) by lia.
    exact IH.
Qed.

(** Once the run-time tick is bound, no interrupt changes the offsets or
    the binding. *)
Lemma run_controlling o ins :
  forall s, controlling o s -> controlling o (run_ticks ins s).
Proof.
  induction ins as [| i ins IH]; intros s Hc; [exact Hc |].
  cbn [run_ticks]. apply IH.
  destruct Hc as (Ht & Hb & Hov & Ho).
  destruct (IRQ_dispatch i s Hov Hb) as (Eo & _ & _ & Et & Eb & Ef).
  unfold controlling. rewrite Eo, Et, Eb, Ef, Ht. cbn [call_isr].
  pose proof (bldc_control_frame i
    (set_OverrunFlag true
       (set_mainCounter (uint64_t (mainCounter s + 1))
          (set_DMA1_IFCR DMA_IFCR_CTCIF1 s)))) as (Fo & _ & Ft & _).
  rewrite Fo, Ft. cbn. tauto.
Qed.

(** The tick that finds the counter at the target takes the last sample,
    divides and binds the run-time tick. *)
Lemma IRQ_finalize i s bl br X V :
  calibrating bl br (CALIBRATION_SAMPLES - 1) (uniform X) s ->
  steady bl br V i ->
  0 < CALIBRATION_SAMPLES < 2 ^ 64 ->
  0 <= X -> 0 <= V -> X + V < 2 ^ 32 ->
  let s' := DMA1_Channel1_IRQHandler i s in
  controlling (uniform ((X + V) / CALIBRATION_SAMPLES)) s' /\
  mainCounter s' = CALIBRATION_SAMPLES.
Proof.
  intros Hcal (Hstill & HA & HB & HC & HD & HE & HF) HN HX HV HXV. cbv zeta.
  destruct (IRQ_calibrating_still i s bl br _ (uniform X) Hcal Hstill
              ltac:(lia) ltac:(lia))
    as (Eb & Ef & Eh & Em & _ & Hfin & _).
  destruct (Hfin ltac:(lia)) as (Eo & Et).
  rewrite (accumulate_uniform _ X V HA HB HC HD HE HF) in Eo by lia.
  rewrite average_uniform in Eo by lia.
  unfold controlling. rewrite Eo, Et, Eb, Ef, Em.
  repeat split. lia.
Qed.

(** C6: from a fresh calibration, with every raw channel at the constant
    [V], no motion and no overrun, the tick on which the counter reaches
    the sample target leaves every offset at exactly [V] and binds the
    run-time tick; before that tick the accumulators hold the plain sums,
    and no later tick changes the offsets again.  The sum of the samples is
    assumed to fit the 32-bit accumulators. *)
Theorem calibration_constant_input
  (V : Z) (i0 : inputs) (s : bldc_state) (ins : list inputs) :
  0 < CALIBRATION_SAMPLES < 2 ^ 64 ->
  0 <= V -> CALIBRATION_SAMPLES * V < 2 ^ 32 ->
  buzzerFunc s = isr_nullFunc -> OverrunFlag s = false ->
  Z.of_nat (length ins) = CALIBRATION_SAMPLES ->
  Forall (steady (sector_left i0) (sector_right i0) V) ins ->
  let s0 := bldc_start_calibration i0 s in
  let sN := run_ticks ins s0 in
  offsets sN = uniform V /\
  timer_brushless sN = isr_bldc_control /\
  mainCounter sN = CALIBRATION_SAMPLES /\
  (forall k : nat,
     (k < length ins)%nat ->
     let sk := run_ticks (firstn k ins) s0 in
     timer_brushless sk = isr_calibration_func /\
     mainCounter sk = Z.of_nat k /\
     offsets sk = uniform (Z.of_nat k * V)) /\
  (forall more : list inputs,
     offsets (run_ticks more sN) = uniform V /\
     timer_brushless (run_ticks more sN) = isr_bldc_control).
Proof.
  intros HN HV HNV Hb Hov Hlen Hall. cbv zeta.
  pose proof (calibrating_after_start i0 s Hb Hov) as H0.
  set (bl := sector_left i0) in *. set (br := sector_right i0) in *.
  set (s0 := bldc_start_calibration i0 s) in *.
  assert (Hprefix : forall k : nat, (k < length ins)%nat ->
            calibrating bl br (Z.of_nat k) (uniform (Z.of_nat k * V))
              (run_ticks (firstn k ins) s0)).
  { intros k Hk.
    assert (Hlk : length (firstn k ins) = k) by (apply firstn_length_le; lia).
    assert (Hfa : Forall (steady bl br V) (firstn k ins)).
    { rewrite <- (firstn_skipn k ins) in Hall. apply Forall_app in Hall. tauto. }
    pose proof (run_accumulate bl br V (firstn k ins) s0 0 0 H0 Hfa) as R.
    rewrite Hlk in R. cbn [Z.add] in R.
    apply R; try lia; nia. }
  assert (Hctl : controlling (uniform V) (run_ticks ins s0) /\
                 mainCounter (run_ticks ins s0) = CALIBRATION_SAMPLES).
  { destruct (exists_last (l := ins)) as (front & i & E).
    { intros ->. cbn in Hlen. lia. }
    assert (Hlf : Z.of_nat (length front) = CALIBRATION_SAMPLES - 1).
    { rewrite E, length_app in Hlen. cbn in Hlen. lia. }
    assert (Hfr : firstn (length front) ins = front).
    { rewrite E. rewrite firstn_app, Nat.sub_diag, firstn_all. cbn.
      apply app_nil_r. }
    pose proof (Hprefix (length front)) as Hp. rewrite Hfr, Hlf in Hp.
    assert (Hlt : (length front < length ins)%nat)
      by (rewrite E, length_app; cbn; lia).
    specialize (Hp Hlt).
    assert (Hi : steady bl br V i).
    { rewrite E in Hall. apply Forall_app in Hall. destruct Hall as (_ & Hl).
      now inversion Hl. }
    rewrite E, run_ticks_app. cbn [run_ticks].
    pose proof (IRQ_finalize i (run_ticks front s0) bl br
                  ((CALIBRATION_SAMPLES - 1) * V) V Hp Hi HN
                  ltac:(nia) HV ltac:(nia)) as F.
    cbv zeta in F.
    replace ((CALIBRATION_SAMPLES - 1) * V + V) with (V * CALIBRATION_SAMPLES) in F by lia.
    rewrite Z.div_mul in F by lia. exact F. }
  destruct Hctl as (Hctl & Hcnt).
  pose proof Hctl as (Et & _ & _ & Eo).
  repeat split; try assumption.
  - apply (Hprefix k H).
  - destruct (Hprefix k H) as (_ & _ & _ & _ & _ & Hm & _). exact Hm.
  - destruct (Hprefix k H) as (_ & _ & _ & _ & _ & _ & Ho). exact Ho.
  - destruct (run_controlling (uniform V) more _ Hctl) as (_ & _ & _ & Ho). exact Ho.
  - destruct (run_controlling (uniform V) more _ Hctl) as (Ht & _). exact Ht.
Qed.

(** *** Motion during calibration *)

Lemma moved_true_iff i s :
  moved i s = true <->
  sector_left i <> pos_0_0 (hall s) \/ sector_right i <> pos_1_0 (hall s).
Proof.
  unfold moved. rewrite Bool.orb_true_iff, !Bool.negb_true_iff, !Z.eqb_neq.
  reflexivity.
Qed.

(** The restart tick: what the handler leaves when [calibration_func] sees
    a changed sector. *)
Lemma IRQ_calibrating_moved i s :
  0 < CALIBRATION_SAMPLES ->
  timer_brushless s = isr_calibration_func ->
  buzzerFunc s = isr_nullFunc -> OverrunFlag s = false ->
  moved i s = true ->
  let s' := DMA1_Channel1_IRQHandler i s in
  mainCounter s' = 0 /\
  offsets s' = accumulate (adc_buffer i) (uniform 0) /\
  hall s' = hall (bldc_start_calibration i s) /\
  timer_brushless s' = isr_calibration_func /\
  buzzerFunc s' = isr_nullFunc /\ OverrunFlag s' = false.
Proof.
  intros HN Ht Hb Hov Hm. cbv zeta.
  destruct (IRQ_dispatch i s Hov Hb) as (Eo & Em & Eh & Et & Eb & Ef).
  rewrite Eo, Em, Eh, Et, Eb, Ef. clear Eo Em Eh Et Eb Ef.
  rewrite Ht. cbn [call_isr].
  rewrite calibration_func_moved by exact Hm.
  rewrite calibration_func_still by apply moved_after_restart.
  change (mainCounter (bldc_start_calibration i _)) with 0.
  assert (E : (0 <? CALIBRATION_SAMPLES) = true) by (apply Z.ltb_lt; lia).
  rewrite E. cbn. repeat split.
Qed.

(** The restart itself: when a calibration tick decodes a sector that
    differs from a motor's baseline, the call continues as on the state that
    [bldc_start_calibration] leaves, with the six accumulators and the tick
    counter at 0 and both baselines taken from the current hall inputs; the
    tick ends with the counter at 0, the accumulators holding the sample
    that was in the buffer on this tick, and the handler still bound to
    [calibration_func]; what was accumulated or counted on earlier ticks
    has no influence on any later state. *)
Theorem motion_restarts_calibration (i : inputs) (s : bldc_state) :
  0 < CALIBRATION_SAMPLES ->
  timer_brushless s = isr_calibration_func ->
  buzzerFunc s = isr_nullFunc -> OverrunFlag s = false ->
  sector_left i <> pos_0_0 (hall s) \/ sector_right i <> pos_1_0 (hall s) ->
  let r := bldc_start_calibration i s in
  let s' := DMA1_Channel1_IRQHandler i s in
  calibration_func i s = calibration_func i r /\
  (offsets r = uniform 0 /\ mainCounter r = 0 /\
   pos_0_0 (hall r) = sector_left i /\ pos_0_1 (hall r) = sector_left i /\
   pos_1_0 (hall r) = sector_right i /\ pos_1_1 (hall r) = sector_right i) /\
  (mainCounter s' = 0 /\
   offsets s' = accumulate (adc_buffer i) (uniform 0) /\
   hall s' = hall r /\
   timer_brushless s' = isr_calibration_func) /\
  (forall (o : Offsets) (c : Z) (later : list inputs),
     run_ticks (i :: later) (set_mainCounter c (set_offsets o s)) =
     run_ticks (i :: later) s).
Proof.
  intros HN Ht Hb Hov Hmv. cbv zeta.
  apply moved_true_iff in Hmv.
  split; [apply calibration_func_moved; exact Hmv |].
  split; [cbn; repeat split |].
  split.
  - destruct (IRQ_calibrating_moved i s HN Ht Hb Hov Hmv) as (A & B & C & D & _).
    repeat split; assumption.
  - intros o c later. cbn [run_ticks]. f_equal.
    apply IRQ_cong; [exact Hov | exact Hov |].
    change (timer_brushless (set_mainCounter c (set_offsets o s)))
      with (timer_brushless s).
    rewrite Ht. cbn [call_isr].
    etransitivity; [apply calibration_func_moved; exact Hmv |].
    symmetry.
    etransitivity; [apply calibration_func_moved; exact Hmv |].
    reflexivity.
Qed.

(** Calibration from a zero counter with [X] already in every accumulator:
    the tick that reaches the target divides [X] plus the samples of all
    the ticks counted. *)
Lemma run_to_finalize bl br V ins s X :
  calibrating bl br 0 (uniform X) s ->
  Forall (steady bl br V) ins ->
  Z.of_nat (length ins) = CALIBRATION_SAMPLES ->
  0 < CALIBRATION_SAMPLES < 2 ^ 64 ->
  0 <= X -> 0 <= V -> X + CALIBRATION_SAMPLES * V < 2 ^ 32 ->
  controlling (uniform ((X + CALIBRATION_SAMPLES * V) / CALIBRATION_SAMPLES))
    (run_ticks ins s).
Proof.
  intros Hcal Hall Hlen HN HX HV HXV.
  destruct (exists_last (l := ins)) as (front & i & E).
  { intros ->. cbn in Hlen. lia. }
  subst ins. rewrite length_app in Hlen. cbn in Hlen.
  apply Forall_app in Hall. destruct Hall as (Hfront & Hlast).
  inversion Hlast as [| ? ? Hi _]; subst.
  rewrite run_ticks_app. cbn [run_ticks].
  pose proof (run_accumulate bl br V front s 0 X Hcal Hfront) as R.
  specialize (R ltac:(lia) ltac:(lia) ltac:(lia) HX HV ltac:(nia)).
  replace (0 + Z.of_nat (length front)) with (CALIBRATION_SAMPLES - 1) in R by lia.
  pose proof (IRQ_finalize i (run_ticks front s) bl br _ V R Hi HN
                ltac:(nia) HV ltac:(nia)) as (F & _).
  replace (X + Z.of_nat (length front) * V + V)
    with (X + CALIBRATION_SAMPLES * V) in F by nia.
  exact F.
Qed.

(** After a restart the accumulators take the restart tick's sample while
    the counter is at 0, so the tick that reaches the target divides one
    sample more than the target by the target. *)
Lemma restart_then_constant_input V i s ins :
  0 < CALIBRATION_SAMPLES < 2 ^ 64 ->
  0 <= V -> (CALIBRATION_SAMPLES + 1) * V < 2 ^ 32 ->
  timer_brushless s = isr_calibration_func ->
  buzzerFunc s = isr_nullFunc -> OverrunFlag s = false ->
  moved i s = true ->
  Forall (steady (sector_left i) (sector_right i) V) (i :: ins) ->
  Z.of_nat (length ins) = CALIBRATION_SAMPLES ->
  controlling (uniform ((CALIBRATION_SAMPLES + 1) * V / CALIBRATION_SAMPLES))
    (run_ticks (i :: ins) s).
Proof.
  intros HN HV HNV Ht Hb Hov Hm Hall Hlen.
  inversion Hall as [| ? ? Hi Hrest]; subst.
  destruct (IRQ_calibrating_moved i s ltac:(lia) Ht Hb Hov Hm)
    as (Em & Eo & Eh & Et & Eb & Ef).
  destruct Hi as (_ & HA & HB & HC & HD & HE & HF).
  rewrite (accumulate_uniform _ 0 V HA HB HC HD HE HF) in Eo by nia.
  cbn [run_ticks].
  assert (Hcal : calibrating (sector_left i) (sector_right i) 0 (uniform (0 + V))
                   (DMA1_Channel1_IRQHandler i s)).
  { unfold calibrating. rewrite Et, Eb, Ef, Eh, Em, Eo. cbn. tauto. }
  pose proof (run_to_finalize _ _ V ins _ (0 + V) Hcal Hrest Hlen HN
                ltac:(lia) HV ltac:(nia)) as F.
  replace (0 + V + CALIBRATION_SAMPLES * V) with ((CALIBRATION_SAMPLES + 1) * V) in F by lia.
  exact F.
Qed.

(** *** A dropped target tick *)


End Interrupt.

(** ** Bench runs *)

(** The theorems above at concrete inputs of the bench configuration. *)

Lemma hall2pos_defined_and_reserved_bench :
  hall2pos true false true = 1 /\ 0 <= hall2pos true false true <= 6.
Proof.
  split; [reflexivity |].
  exact (proj1 (hall2pos_defined_and_reserved true false true)).
Defined.

(** A fault code on the left motor: the right controller is stepped with
    its enable cleared although the administrative enable is set. *)
Lemma enable_is_fault_gate_bench :
  @enable bench bench_rest = 1 /\
  z_errCode (rtY (rtM_Left (bench_left_fault 4 bench_run))) = 4 /\
  b_motEna (rtU (rtM_Right
    (@bldc_control bench bench_rest (bench_left_fault 4 bench_run)))) = 0.
Proof.
  split; [reflexivity |]. split; [reflexivity |].
  destruct (@enable_is_fault_gate bench bench_rest (bench_left_fault 4 bench_run) Right)
    as (_ & _ & _ & H).
  apply H. left. vm_compute. discriminate.
Defined.

(** Exactly at the ceiling, with the fault gate closed: the output stays
    enabled. *)
Lemma current_protection_gate_bench :
  @TIM_BDTR_MOE bench <> 0 /\
  Z.abs (@cur_DC_of bench Left bench_at_ceiling (bench_left_fault 4 bench_run))
    = @curDC_max bench /\
  @MOE_set bench (LEFT_TIM
    (@bldc_control bench bench_at_ceiling (bench_left_fault 4 bench_run))) = true.
Proof.
  assert (Hm : @TIM_BDTR_MOE bench <> 0) by (vm_compute; discriminate).
  split; [exact Hm |]. split; [reflexivity |].
  destruct (@current_protection_gate bench bench_at_ceiling
              (bench_left_fault 4 bench_run) Left Hm) as (_ & _ & H & _).
  apply H; [reflexivity | vm_compute; discriminate].
Defined.

(** The left rotor moves on to a sector not seen before: one step. *)
Lemma step_counter_rule_bench :
  steps_0 (hall bench_run) = 0 /\
  steps_0 (hall (@bldc_control bench bench_turned bench_run)) = 1.
Proof.
  split; [reflexivity |].
  destruct (@step_counter_rule bench bench_turned bench_run Left) as (H & _).
  cbv zeta in H. apply H. split; vm_compute; discriminate.
Defined.

(** A target of 500 on the left FOC motor and of -2000 on the right one. *)
Lemma pwm_compare_saturated_bench :
  2 * 110 <= @pwm_res bench /\
  110 <= CCR_U (LEFT_TIM (@bldc_control bench bench_rest bench_run)) <= 2000 - 110 /\
  0 <= CCR_U (RIGHT_TIM (@bldc_control bench bench_rest bench_run)) <= 2000.
Proof.
  assert (Hr : 2 * 110 <= @pwm_res bench) by (vm_compute; discriminate).
  split; [exact Hr |].
  destruct (@pwm_compare_saturated bench bench_rest bench_run Left Hr)
    as (_ & _ & _ & HL & _).
  destruct (@pwm_compare_saturated bench bench_rest bench_run Right Hr)
    as (_ & _ & _ & HR & _).
  split; [exact HL | exact HR].
Defined.

Lemma bench_rest_steady :
  @steady bench (@sector_left bench bench_rest) (@sector_right bench bench_rest)
    2000 bench_rest.
Proof. vm_compute. repeat split. Defined.

(** Four ticks at 2000 counts with a target of four samples. *)
Lemma calibration_constant_input_bench :
  @offsets bench bench_run = uniform 2000 /\
  @timer_brushless bench bench_run = isr_bldc_control.
Proof.
  destruct (@calibration_constant_input bench 2000 bench_rest bench_on
              [bench_rest; bench_rest; bench_rest; bench_rest])
    as (Ho & Ht & _).
  - cbn. lia.
  - lia.
  - cbn. lia.
  - reflexivity.
  - reflexivity.
  - reflexivity.
  - repeat (apply Forall_cons; [exact bench_rest_steady |]). apply Forall_nil.
  - split; [exact Ho | exact Ht].
Defined.

(** The left rotor turns after two calibration ticks. *)
Lemma motion_restarts_calibration_bench :
  @mainCounter bench bench_cal2 = 2 /\
  @sector_left bench bench_turned <> pos_0_0 (hall bench_cal2) /\
  @mainCounter bench (@DMA1_Channel1_IRQHandler bench bench_turned bench_cal2) = 0 /\
  @offsets bench (@DMA1_Channel1_IRQHandler bench bench_turned bench_cal2)
    = uniform 2000.
Proof.
  assert (Hm : @sector_left bench bench_turned <> pos_0_0 (hall bench_cal2))
    by (vm_compute; discriminate).
  split; [reflexivity |]. split; [exact Hm |].
  destruct (@motion_restarts_calibration bench bench_turned bench_cal2)
    as (_ & _ & (Hc & Ho & _) & _).
  - cbn. lia.
  - reflexivity.
  - reflexivity.
  - reflexivity.
  - left. exact Hm.
  - split; [exact Hc | exact Ho].
Defined.

(** An interrupt arriving while the guard is set. *)
Lemma overrun_tick_frame_bench :
  @OverrunFlag bench (set_OverrunFlag true bench_cal2) = true /\
  @offsets bench (@DMA1_Channel1_IRQHandler bench bench_rest
                    (set_OverrunFlag true bench_cal2))
    = offsets (set_OverrunFlag true bench_cal2) /\
  @mainCounter bench (@DMA1_Channel1_IRQHandler bench bench_rest
                        (set_OverrunFlag true bench_cal2)) = 3.
Proof.
  split; [reflexivity |].
  destruct (@overrun_tick_frame bench bench_rest (set_OverrunFlag true bench_cal2)
              eq_refl) as (Hc & _ & Ho & _).
  split; [exact Ho | exact Hc].
Defined.

(** C8 as stated fails on the tick counter: the dropped invocation has
    already incremented it. *)
Lemma overrun_tick_changes_counter :
  @OverrunFlag bench (set_OverrunFlag true bench_cal2) = true /\
  @mainCounter bench (@DMA1_Channel1_IRQHandler bench bench_rest
                        (set_OverrunFlag true bench_cal2))
    <> mainCounter (set_OverrunFlag true bench_cal2).
Proof. split; [reflexivity | vm_compute; discriminate]. Qed.

Lemma tick_counter_step_bench :
  @buzzerFunc bench bench_cal2 = isr_nullFunc /\
  @mainCounter bench (@DMA1_Channel1_IRQHandler bench bench_rest bench_cal2) = 3 /\
  @mainCounter bench (@DMA1_Channel1_IRQHandler bench bench_turned bench_cal2) = 0.
Proof.
  split; [reflexivity |].
  split.
  - exact (proj1 (@tick_counter_step bench bench_rest bench_cal2 eq_refl)).
  - exact (proj1 (@tick_counter_step bench bench_turned bench_cal2 eq_refl)).
Defined.

(** C9 as stated fails on a restart: the counter goes from 2 back to 0
    across one invocation. *)
Lemma restart_decreases_tick_counter :
  @mainCounter bench (@DMA1_Channel1_IRQHandler bench bench_turned bench_cal2)
    < @mainCounter bench bench_cal2.
Proof. vm_compute. reflexivity. Qed.

(** A restart after two ticks, then four more ticks at 2000 counts: five
    samples are divided by four. *)
Lemma restart_then_constant_input_bench :
  @offsets bench
    (@run_ticks bench
       [bench_turned; bench_turned; bench_turned; bench_turned; bench_turned]
       bench_cal2)
  = uniform 2500.
Proof. vm_compute. reflexivity. Qed.

(** * Further properties *)

(** ** The hall table as a commutation ring *)

(** X1: between two hall readings a motor can produce, exactly one line
    differs if and only if the decoded sectors are neighbours on the ring
    0..5; readings that decode to the same valid sector are the same. *)
Theorem hall2pos_single_line_steps (u v w u' v' w' : bool) :
  hall2pos u v w <> 6 -> hall2pos u' v' w' <> 6 ->
  (lines_changed u v w u' v' w' = 1%nat <->
   adjacent_sectors (hall2pos u v w) (hall2pos u' v' w')) /\
  (hall2pos u v w = hall2pos u' v' w' -> (u, v, w) = (u', v', w')).
Proof.
  unfold adjacent_sectors, lines_changed.
  destruct u, v, w, u', v', w'; cbn; intros H1 H2;
    try (exfalso; apply H1; reflexivity);
    try (exfalso; apply H2; reflexivity);
    (split; [split; [intros E; try discriminate E; auto
                    | intros [E | E]; try discriminate E; reflexivity]
            | intros E; try discriminate E; reflexivity]).
Qed.

Lemma hall2pos_single_line_steps_bench :
  hall2pos true false false = 0 /\ hall2pos true true false = 5 /\
  lines_changed true false false true true false = 1%nat /\
  adjacent_sectors 0 5.
Proof.
  split; [reflexivity |]. split; [reflexivity |]. split; [reflexivity |].
  apply (proj1 (proj1 (hall2pos_single_line_steps true false false true true false
                         ltac:(cbn; discriminate) ltac:(cbn; discriminate)))).
  reflexivity.
Defined.

(** ** More on the run-time control tick *)

Lemma int16_of_uint32_exact x : in_int16 x -> int16_t (uint32_t x) = x.
Proof.
  unfold in_int16, int16_t, swrap, uint32_t, wrap. intros H.
  change (2 ^ 16) with 65536. change (2 ^ (16 - 1)) with 32768.
  change (2 ^ 32) with (65536 * 65536).
  assert (E : (x mod (65536 * 65536)) mod 65536 = x mod 65536).
  { apply Z.mod_mod_divide. exists 65536. reflexivity. }
  rewrite E.
  destruct (Z_lt_dec x 0) as [Hneg | Hpos].
  - assert (Em : x mod 65536 = x + 65536).
    { rewrite <- (Z_mod_plus_full x 1 65536). apply Z.mod_small. lia. }
    rewrite Em.
    destruct (x + 65536 <? 32768) eqn:L; [apply Z.ltb_lt in L; lia | lia].
  - rewrite Z.mod_small by lia.
    destruct (x <? 32768) eqn:L; [reflexivity | apply Z.ltb_ge in L; lia].
Qed.

Lemma int16_in_range x : in_int16 (int16_t x).
Proof.
  unfold in_int16, int16_t, swrap.
  pose proof (wrap_range 16 x ltac:(lia)) as H.
  change (2 ^ 16) with 65536 in *. change (2 ^ (16 - 1)) with 32768.
  destruct (wrap 16 x <? 32768) eqn:E;
    [apply Z.ltb_lt in E | apply Z.ltb_ge in E]; lia.
Qed.

Lemma truthy_b2z b : truthy (Z.b2z b) = b.
Proof. destruct b; reflexivity. Qed.

Lemma testbit_above_32 b n : 0 <= b < 2 ^ 32 -> 32 <= n -> Z.testbit b n = false.
Proof.
  intros Hb Hn. rewrite <- (Z.mod_small b (2 ^ 32)) by exact Hb.
  apply Z.mod_pow2_bits_high. lia.
Qed.

Section ControlTickInputs.

Context {pf : Platform}.

Ltac open_tick :=
  unfold bldc_control;
  repeat match goal with
         | |- context [track_sector ?a ?b ?c ?d] =>
             let E := fresh "Etrack" in
             destruct (track_sector a b c d) as [[? ?] ?] eqn:E
         end;
  cbn [rtM_Left rtM_Right LEFT_TIM RIGHT_TIM hall cur offsets enableFin
       timer_brushless buzzerFunc OverrunFlag mainCounter buzzer
       batVoltage batVoltageFixdt DMA1_IFCR pwm_margin].

(** The input record of a motor's controller after a control tick. *)
Lemma bldc_control_rtU i s m :
  let s' := bldc_control i s in
  let u := rtU (rtM_of m s') in
  let '(o1, o2, o3) := offsets_of m (offsets s) in
  let '(a1, a2, a3) := raw_of m (adc_buffer i) in
  r_inpTgt u = int16_t (target_of m i) /\
  i_phaAB u = int16_t (uint32_t (o1 - a1)) /\
  i_phaBC u = int16_t (uint32_t (o2 - a2)) /\
  i_DCLink u = int16_t (uint32_t (o3 - a3)) /\
  cur_of m (cur s') = (i_phaAB u, i_phaBC u, i_DCLink u) /\
  hall2pos (truthy (b_hallA u)) (truthy (b_hallB u)) (truthy (b_hallC u))
    = sector_of m i /\
  a_mechAngle u = a_mechAngle (rtU (rtM_of m s)).
Proof.
  destruct m; cbv zeta;
    cbn [offsets_of raw_of rtM_of cur_of target_of sector_of]; open_tick;
    rewrite !rtU_controller_step;
    cbn [r_inpTgt i_phaAB i_phaBC i_DCLink b_hallA b_hallB b_hallC a_mechAngle
         curL_phaA curL_phaB curL_DC curR_phaB curR_phaC curR_DC];
    rewrite !truthy_b2z; repeat split.
Qed.

(** X2: a control tick stores, and hands to the controller, each current
    as stored offset minus raw sample (left: rlA, rlB, dcl; right: rrB,
    rrC, dcr); the value is exact whenever the difference fits [int16_t],
    and always lies in the [int16_t] range. *)
Theorem currents_are_offset_minus_sample (i : inputs) (s : bldc_state) (m : motor) :
  let s' := bldc_control i s in
  let u := rtU (rtM_of m s') in
  let '(o1, o2, o3) := offsets_of m (offsets s) in
  let '(a1, a2, a3) := raw_of m (adc_buffer i) in
  cur_of m (cur s') = (i_phaAB u, i_phaBC u, i_DCLink u) /\
  (in_int16 (o1 - a1) -> i_phaAB u = o1 - a1) /\
  (in_int16 (o2 - a2) -> i_phaBC u = o2 - a2) /\
  (in_int16 (o3 - a3) -> i_DCLink u = o3 - a3) /\
  in_int16 (i_phaAB u) /\ in_int16 (i_phaBC u) /\ in_int16 (i_DCLink u).
Proof.
  pose proof (bldc_control_rtU i s m) as H. cbv zeta in *.
  destruct (offsets_of m (offsets s)) as [[o1 o2] o3].
  destruct (raw_of m (adc_buffer i)) as [[a1 a2] a3].
  destruct H as (_ & E1 & E2 & E3 & Ec & _).
  rewrite Ec, E1, E2, E3.
  repeat split; try apply int16_in_range; intros; now apply int16_of_uint32_exact.
Qed.

(** X3: after a control tick the stored current sector of a motor is the
    sector decoded from this tick's hall lines, the hall bits handed to the
    controller decode to the same sector, and two history slots that
    differed, or a tick that saw a change, leave two slots that differ. *)
Theorem stored_sector_is_decoded (i : inputs) (s : bldc_state) (m : motor) :
  let s' := bldc_control i s in
  let u := rtU (rtM_of m s') in
  pos_cur m (hall s') = sector_of m i /\
  hall2pos (truthy (b_hallA u)) (truthy (b_hallB u)) (truthy (b_hallC u))
    = pos_cur m (hall s') /\
  (pos_cur m (hall s) <> pos_prev m (hall s) \/ sector_of m i <> pos_cur m (hall s) ->
   pos_cur m (hall s') <> pos_prev m (hall s')).
Proof.
  cbv zeta.
  pose proof (bldc_control_rtU i s m) as H. cbv zeta in H.
  destruct (offsets_of m (offsets s)) as [[o1 o2] o3].
  destruct (raw_of m (adc_buffer i)) as [[a1 a2] a3].
  destruct H as (_ & _ & _ & _ & _ & Eh & _).
  pose proof (bldc_control_hall i s m) as T. cbv zeta in T.
  pose proof (track_sector_spec (sector_of m i) (pos_cur m (hall s))
                (pos_prev m (hall s)) (steps_of m (hall s))) as S.
  rewrite <- T in S. destruct S as (_ & _ & Sshift & Sstay).
  assert (Ecur : pos_cur m (hall (bldc_control i s)) = sector_of m i).
  { destruct (Z.eq_dec (sector_of m i) (pos_cur m (hall s))) as [E | N].
    - destruct (Sstay E) as (Hc & _). congruence.
    - destruct (Sshift N) as (Hc & _). exact Hc. }
  split; [exact Ecur |]. split; [congruence |].
  intros Hd.
  destruct (Z.eq_dec (sector_of m i) (pos_cur m (hall s))) as [E | N].
  - destruct (Sstay E) as (Hc & Hp). rewrite Hc, Hp.
    destruct Hd as [Hd | Hd]; [exact Hd | contradiction].
  - destruct (Sshift N) as (Hc & Hp). rewrite Hc, Hp. exact N.
Qed.

(** X4: inside the window [margin, period - margin] a compare register
    holds the raw duty plus half the period unchanged, and the clamp keeps
    the order of the three phase duties. *)
Theorem duty_window_pass_through (i : inputs) (s : bldc_state) (m : motor) :
  2 * 110 <= pwm_res ->
  let s' := bldc_control i s in
  let y := rtY (rtM_of m s') in
  let t := TIM_of m s' in
  let lo := margin_of m i in
  let hi := pwm_res - margin_of m i in
  (lo <= DC_phaA y + pwm_res / 2 <= hi -> CCR_U t = DC_phaA y + pwm_res / 2) /\
  (lo <= DC_phaB y + pwm_res / 2 <= hi -> CCR_V t = DC_phaB y + pwm_res / 2) /\
  (lo <= DC_phaC y + pwm_res / 2 <= hi -> CCR_W t = DC_phaC y + pwm_res / 2) /\
  (DC_phaA y <= DC_phaB y -> CCR_U t <= CCR_V t) /\
  (DC_phaB y <= DC_phaC y -> CCR_V t <= CCR_W t) /\
  (DC_phaA y <= DC_phaC y -> CCR_U t <= CCR_W t).
Proof.
  intros Hres. cbv zeta.
  destruct (bldc_control_TIM i s m) as (_ & HU & HV & HW).
  assert (H0 : 0 <= margin_of m i) by (destruct (margin_of_cases m i); lia).
  assert (H2 : 2 * margin_of m i <= pwm_res)
    by (pose proof pwm_res_range; destruct (margin_of_cases m i); lia).
  rewrite HU, HV, HW.
  destruct (duty_saturate (DC_phaA (rtY (rtM_of m (bldc_control i s)))) _ H0 H2) as (EU & _).
  destruct (duty_saturate (DC_phaB (rtY (rtM_of m (bldc_control i s)))) _ H0 H2) as (EV & _).
  destruct (duty_saturate (DC_phaC (rtY (rtM_of m (bldc_control i s)))) _ H0 H2) as (EW & _).
  rewrite EU, EV, EW. unfold saturate.
  repeat split; intros; lia.
Qed.

(** X5: the current protection gate changes nothing in a 32-bit BDTR but
    the bits of the main-output-enable mask. *)
Theorem gate_keeps_other_BDTR_bits (i : inputs) (s : bldc_state) (m : motor) (n : Z) :
  0 <= BDTR (TIM_of m s) < 2 ^ 32 ->
  0 <= n -> Z.testbit TIM_BDTR_MOE n = false ->
  Z.testbit (BDTR (TIM_of m (bldc_control i s))) n = Z.testbit (BDTR (TIM_of m s)) n.
Proof.
  intros Hb Hn Hm.
  destruct (bldc_control_TIM i s m) as (E & _). rewrite E. unfold chop.
  destruct ((ABS (cur_DC_of m i s) >? curDC_max) || (enable i =? 0)).
  - rewrite Z.land_spec. unfold uint32_t, wrap.
    destruct (Z_lt_dec n 32) as [L | G].
    + rewrite Z.mod_pow2_bits_low by lia.
      rewrite Z.lnot_spec by lia. rewrite Hm. cbn. apply Bool.andb_true_r.
    + rewrite Z.mod_pow2_bits_high by lia.
      rewrite (testbit_above_32 _ n Hb) by lia. reflexivity.
  - rewrite Z.lor_spec, Hm. apply Bool.orb_false_r.
Qed.

End ControlTickInputs.

(** ** More on the interrupt handler *)

Section InterruptPhases.

Context {pf : Platform}.

Ltac open_tick :=
  unfold bldc_control;
  repeat match goal with
         | |- context [track_sector ?a ?b ?c ?d] =>
             let E := fresh "Etrack" in
             destruct (track_sector a b c d) as [[? ?] ?] eqn:E
         end;
  cbn [rtM_Left rtM_Right LEFT_TIM RIGHT_TIM hall cur offsets enableFin
       timer_brushless buzzerFunc OverrunFlag mainCounter buzzer
       batVoltage batVoltageFixdt DMA1_IFCR pwm_margin].

Ltac split_ifs :=
  repeat match goal with |- context [if ?b then _ else _] => destruct b end.

(** Neither handler touches the buzzer, the battery filter or the
    interrupt-clear register. *)
Lemma call_isr_aux_frame f i s :
  buzzer (call_isr f i s) = buzzer s /\
  batVoltage (call_isr f i s) = batVoltage s /\
  batVoltageFixdt (call_isr f i s) = batVoltageFixdt s /\
  DMA1_IFCR (call_isr f i s) = DMA1_IFCR s.
Proof.
  destruct f; cbn [call_isr].
  - repeat split.
  - unfold calibration_func. split_ifs; repeat split.
  - open_tick. repeat split.
Qed.

(** [calibration_func] and [nullFunc] leave alone what the run-time tick
    drives. *)
Lemma call_isr_drive_frame f i s :
  f <> isr_bldc_control ->
  drive_state (call_isr f i s) = drive_state s.
Proof.
  intros Hf. destruct f; cbn [call_isr]; [reflexivity | | congruence].
  unfold calibration_func. split_ifs; reflexivity.
Qed.

(** The shape of an invocation that is not dropped. *)
Lemma IRQ_shape i s :
  OverrunFlag s = false ->
  exists s2,
    DMA1_Channel1_IRQHandler i s = after_handlers i s2 /\
    buzzer s2 = buzzer s /\
    batVoltage s2 = batVoltage s /\ batVoltageFixdt s2 = batVoltageFixdt s /\
    OverrunFlag s2 = false /\
    (buzzerFunc s = isr_nullFunc ->
     s2 = set_OverrunFlag false
            (call_isr (timer_brushless s) i
               (set_OverrunFlag true
                  (set_mainCounter (uint64_t (mainCounter s + 1))
                     (set_DMA1_IFCR DMA_IFCR_CTCIF1 s))))).
Proof.
  intros Hov.
  set (pre := set_OverrunFlag true
                (set_mainCounter (uint64_t (mainCounter s + 1))
                   (set_DMA1_IFCR DMA_IFCR_CTCIF1 s))).
  set (s1 := call_isr (timer_brushless s) i pre).
  exists (call_isr (buzzerFunc s1) i (set_OverrunFlag false s1)).
  destruct (call_isr_aux_frame (timer_brushless s) i pre) as (B1 & V1 & F1 & _).
  destruct (call_isr_aux_frame (buzzerFunc s1) i (set_OverrunFlag false s1))
    as (B2 & V2 & F2 & _).
  destruct (call_isr_frame (buzzerFunc s1) i (set_OverrunFlag false s1)) as (_ & O2).
  destruct (call_isr_frame (timer_brushless s) i pre) as (Bf & _).
  fold s1 in B1, V1, F1, Bf.
  split.
  { unfold DMA1_Channel1_IRQHandler, after_handlers. cbv zeta.
    change (OverrunFlag (set_mainCounter
              (uint64_t (mainCounter (set_DMA1_IFCR DMA_IFCR_CTCIF1 s) + 1))
              (set_DMA1_IFCR DMA_IFCR_CTCIF1 s)))
      with (OverrunFlag s).
    rewrite Hov. reflexivity. }
  split; [rewrite B2; exact B1 |].
  split; [rewrite V2; exact V1 |].
  split; [rewrite F2; exact F1 |].
  split; [rewrite O2; reflexivity |].
  intros Hb. change (buzzerFunc pre) with (buzzerFunc s) in Bf.
  rewrite Bf, Hb. reflexivity.
Qed.

Lemma buzzerTimer_wave i b :
  buzzerTimer (buzzer_wave i b) = uint32_t (buzzerTimer b + 1).
Proof.
  unfold buzzer_wave. cbv zeta.
  destruct (truthy (buzzerFreq i) && _).
  - destruct (buzzerPrev b =? 0); reflexivity.
  - destruct (truthy (buzzerPrev b)); reflexivity.
Qed.

(** The battery and buzzer part of an invocation that is not dropped. *)
Lemma IRQ_aux i s :
  OverrunFlag s = false ->
  let s' := DMA1_Channel1_IRQHandler i s in
  let t := uint32_t (buzzerTimer (buzzer s) + 1) in
  let y := filtLowPass32 (batt1 (adc_buffer i)) BAT_FILT_COEF (batVoltageFixdt s) in
  buzzer s' = buzzer_wave i (buzzer s) /\
  OverrunFlag s' = false /\
  (t mod 1000 = 0 ->
     batVoltageFixdt s' = y /\ batVoltage s' = int16_t (Z.shiftr y 16)) /\
  (t mod 1000 <> 0 ->
     batVoltageFixdt s' = batVoltageFixdt s /\ batVoltage s' = batVoltage s).
Proof.
  intros Hov. cbv zeta.
  destruct (IRQ_shape i s Hov) as (s2 & E & B & V & F & O & _).
  rewrite E. unfold after_handlers. cbv zeta.
  cbn [buzzer set_buzzer batVoltageFixdt].
  rewrite buzzerTimer_wave, B, F.
  destruct (uint32_t (buzzerTimer (buzzer s) + 1) mod 1000 =? 0) eqn:Et;
    [apply Z.eqb_eq in Et | apply Z.eqb_neq in Et];
    cbn; repeat split; intros; try assumption; try reflexivity; contradiction.
Qed.

(** What an invocation does to the drive while the run-time tick is not
    bound. *)
Lemma IRQ_drive_frame i s :
  OverrunFlag s = false -> buzzerFunc s = isr_nullFunc ->
  timer_brushless s <> isr_bldc_control ->
  drive_state (DMA1_Channel1_IRQHandler i s) = drive_state s.
Proof.
  intros Hov Hb Ht.
  destruct (IRQ_shape i s Hov) as (s2 & E & _ & _ & _ & _ & Es2).
  rewrite E, (Es2 Hb). unfold after_handlers. cbv zeta.
  set (pre := set_OverrunFlag true
                (set_mainCounter (uint64_t (mainCounter s + 1))
                   (set_DMA1_IFCR DMA_IFCR_CTCIF1 s))).
  transitivity (drive_state (call_isr (timer_brushless s) i pre)).
  - match goal with |- context [if ?b then _ else _] => destruct b end;
      reflexivity.
  - rewrite (call_isr_drive_frame _ i pre Ht). reflexivity.
Qed.

Lemma uint64_add_idemp a b : uint64_t (uint64_t a + b) = uint64_t (a + b).
Proof. unfold uint64_t, wrap. apply Z.add_mod_idemp_l. lia. Qed.

Lemma uint32_add_idemp a b : uint32_t (uint32_t a + b) = uint32_t (a + b).
Proof. unfold uint32_t, wrap. apply Z.add_mod_idemp_l. lia. Qed.

(** X6: while the overrun guard stays set, no invocation releases it: a
    run of any length only counts its ticks (modulo 2^64) and acknowledges
    the interrupt; offsets, sector history, drive, buzzer, battery filter
    and both handler bindings stay as they were. *)
Theorem guard_held_locks_out (ins : list inputs) (s : bldc_state) :
  OverrunFlag s = true ->
  0 <= mainCounter s < 2 ^ 64 ->
  let s' := run_ticks ins s in
  mainCounter s' = uint64_t (mainCounter s + Z.of_nat (length ins)) /\
  OverrunFlag s' = true /\
  offsets s' = offsets s /\ hall s' = hall s /\
  drive_state s' = drive_state s /\
  buzzer s' = buzzer s /\
  batVoltage s' = batVoltage s /\ batVoltageFixdt s' = batVoltageFixdt s /\
  timer_brushless s' = timer_brushless s /\ buzzerFunc s' = buzzerFunc s.
Proof.
  revert s. induction ins as [| i ins IH]; intros s Hov Hc; cbv zeta.
  - cbn. rewrite Z.add_0_r, uint64_small by exact Hc. repeat split. exact Hov.
  - cbn [run_ticks length]. rewrite (IRQ_overrun i s Hov).
    set (s1 := set_mainCounter _ _).
    assert (Hov1 : OverrunFlag s1 = true) by exact Hov.
    assert (Hc1 : 0 <= mainCounter s1 < 2 ^ 64) by (apply (wrap_range 64); lia).
    destruct (IH s1 Hov1 Hc1) as (Em & Eo & E1 & E2 & E3 & E4 & E5 & E6 & E7 & E8).
    rewrite Em, Eo, E1, E2, E3, E4, E5, E6, E7, E8.
    subst s1. cbn [mainCounter set_mainCounter].
    rewrite uint64_add_idemp, Nat2Z.inj_succ.
    replace (mainCounter s + 1 + Z.of_nat (length ins))
      with (mainCounter s + Z.succ (Z.of_nat (length ins))) by lia.
    repeat split.
Qed.

(** One interrupt of the run-time phase. *)
Lemma IRQ_controlling i s o m :
  controlling o s ->
  let s' := DMA1_Channel1_IRQHandler i s in
  controlling o s' /\
  mainCounter s' = uint64_t (mainCounter s + 1) /\
  (pos_cur m (hall s'), pos_prev m (hall s'), steps_of m (hall s')) =
    track_sector (sector_of m i) (pos_cur m (hall s)) (pos_prev m (hall s))
      (steps_of m (hall s)).
Proof.
  intros Hc. cbv zeta.
  split; [apply (run_controlling o [i] s Hc) |].
  destruct Hc as (Ht & Hb & Hov & Ho).
  destruct (IRQ_dispatch i s Hov Hb) as (_ & Em & Eh & _).
  rewrite Em, Eh, Ht. cbn [call_isr].
  set (pre := set_OverrunFlag true _).
  split.
  - destruct (bldc_control_frame i pre) as (_ & E & _). rewrite E. reflexivity.
  - apply (bldc_control_hall i pre m).
Qed.

(** X7: once the run-time tick is bound, it stays bound: through any run
    of interrupts the offsets keep their calibrated values, the binding
    does not change and every tick is counted. *)
Theorem control_phase_is_permanent (o : Offsets) (ins : list inputs) (s : bldc_state) :
  controlling o s ->
  0 <= mainCounter s < 2 ^ 64 ->
  let s' := run_ticks ins s in
  offsets s' = o /\
  timer_brushless s' = isr_bldc_control /\
  OverrunFlag s' = false /\
  mainCounter s' = uint64_t (mainCounter s + Z.of_nat (length ins)).
Proof.
  revert s. induction ins as [| i ins IH]; intros s Hc Hm; cbv zeta.
  - cbn. rewrite Z.add_0_r, uint64_small by exact Hm.
    destruct Hc as (Ht & _ & Hov & Ho). repeat split; assumption.
  - cbn [run_ticks length].
    destruct (IRQ_controlling i s o Left Hc) as (Hc1 & Em & _).
    assert (Hm1 : 0 <= mainCounter (DMA1_Channel1_IRQHandler i s) < 2 ^ 64)
      by (rewrite Em; apply (wrap_range 64); lia).
    destruct (IH _ Hc1 Hm1) as (A & B & C & D).
    rewrite D, Em, uint64_add_idemp, Nat2Z.inj_succ.
    replace (mainCounter s + 1 + Z.of_nat (length ins))
      with (mainCounter s + Z.succ (Z.of_nat (length ins))) by lia.
    repeat split; assumption.
Qed.

(** X8: as long as the run-time tick has not been bound, the interrupt has
    not driven anything: timer registers, controller instances, currents,
    fault gate and step counters are what they were before the run. *)
Theorem no_actuation_before_control (ins : list inputs) (s : bldc_state) :
  OverrunFlag s = false -> buzzerFunc s = isr_nullFunc ->
  timer_brushless (run_ticks ins s) <> isr_bldc_control ->
  drive_state (run_ticks ins s) = drive_state s.
Proof.
  revert s. induction ins as [| i ins IH]; intros s Hov Hb Hend; [reflexivity |].
  cbn [run_ticks] in *.
  assert (Ht : timer_brushless s <> isr_bldc_control).
  { intros Ht. apply Hend.
    assert (Hc : controlling (offsets s) s) by (unfold controlling; tauto).
    apply (run_controlling (offsets s) (i :: ins) s Hc). }
  destruct (IRQ_dispatch i s Hov Hb) as (_ & _ & _ & _ & Eb & Ef).
  rewrite (IH _ Ef Eb Hend).
  apply IRQ_drive_frame; assumption.
Qed.

(** X9: chatter of any length between the two stored sectors of a motor
    never counts a step: the counter is unchanged and the history still
    holds the same two sectors. *)
Theorem chatter_never_counts
  (m : motor) (a b : Z) (o : Offsets) (ins : list inputs) (s : bldc_state) :
  controlling o s ->
  (pos_cur m (hall s) = a /\ pos_prev m (hall s) = b) \/
  (pos_cur m (hall s) = b /\ pos_prev m (hall s) = a) ->
  Forall (fun i => sector_of m i = a \/ sector_of m i = b) ins ->
  let s' := run_ticks ins s in
  steps_of m (hall s') = steps_of m (hall s) /\
  ((pos_cur m (hall s') = a /\ pos_prev m (hall s') = b) \/
   (pos_cur m (hall s') = b /\ pos_prev m (hall s') = a)).
Proof.
  revert s. induction ins as [| i ins IH]; intros s Hc Hpos Hall; cbv zeta.
  - cbn. split; [reflexivity | exact Hpos].
  - inversion Hall as [| ? ? Hi Hrest]; subst. cbn [run_ticks].
    destruct (IRQ_controlling i s o m Hc) as (Hc1 & _ & T).
    pose proof (track_sector_spec (sector_of m i) (pos_cur m (hall s))
                  (pos_prev m (hall s)) (steps_of m (hall s))) as S.
    rewrite <- T in S. destruct S as (_ & Skeep & Sshift & Sstay).
    assert (Hst : steps_of m (hall (DMA1_Channel1_IRQHandler i s)) = steps_of m (hall s)).
    { apply Skeep. intros (N1 & N2). destruct Hpos as [(P1 & P2) | (P1 & P2)];
        destruct Hi as [Hi | Hi]; congruence. }
    assert (Hpos1 :
      (pos_cur m (hall (DMA1_Channel1_IRQHandler i s)) = a /\
       pos_prev m (hall (DMA1_Channel1_IRQHandler i s)) = b) \/
      (pos_cur m (hall (DMA1_Channel1_IRQHandler i s)) = b /\
       pos_prev m (hall (DMA1_Channel1_IRQHandler i s)) = a)).
    { destruct (Z.eq_dec (sector_of m i) (pos_cur m (hall s))) as [E | N].
      - destruct (Sstay E) as (Q1 & Q2). rewrite Q1, Q2. exact Hpos.
      - destruct (Sshift N) as (Q1 & Q2). rewrite Q1, Q2.
        destruct Hpos as [(P1 & P2) | (P1 & P2)];
          destruct Hi as [Hi | Hi]; try congruence; [right | left]; split; congruence. }
    destruct (IH _ Hc1 Hpos1 Hrest) as (A & B).
    split; [rewrite A; exact Hst | exact B].
Qed.

(** *** Battery filter and buzzer *)

Lemma IRQ_bat_coherent i s : bat_coherent s -> bat_coherent (DMA1_Channel1_IRQHandler i s).
Proof.
  unfold bat_coherent. intros H.
  destruct (OverrunFlag s) eqn:Hov.
  - rewrite (IRQ_overrun i s Hov). exact H.
  - destruct (IRQ_aux i s Hov) as (_ & _ & Hon & Hoff).
    destruct (Z.eq_dec (uint32_t (buzzerTimer (buzzer s) + 1) mod 1000) 0) as [E | N].
    + destruct (Hon E) as (Ef & Ev). rewrite Ef, Ev. reflexivity.
    + destruct (Hoff N) as (Ef & Ev). rewrite Ef, Ev. exact H.
Qed.

Lemma int32_exact x : - 2 ^ 31 <= x < 2 ^ 31 -> int32_t x = x.
Proof.
  unfold int32_t, swrap, wrap. intros H.
  change (2 ^ 32) with 4294967296. change (2 ^ (32 - 1)) with 2147483648.
  change (2 ^ 31) with 2147483648 in H.
  destruct (Z_lt_dec x 0) as [Hneg | Hpos].
  - assert (Em : x mod 4294967296 = x + 4294967296).
    { rewrite <- (Z_mod_plus_full x 1 4294967296). apply Z.mod_small. lia. }
    rewrite Em.
    destruct (x + 4294967296 <? 2147483648) eqn:L; [apply Z.ltb_lt in L; lia | lia].
  - rewrite Z.mod_small by lia.
    destruct (x <? 2147483648) eqn:L; [reflexivity | apply Z.ltb_ge in L; lia].
Qed.

(** X10: the battery reading is always the integer part of the filter
    state: the start-up values agree when the initial voltage fits
    [int16_t], and every interrupt and every calibration start keeps the
    agreement. *)
Theorem battery_reading_coherent
  (dw0 : DW) (i0 : inputs) (ins : list inputs) (s : bldc_state) :
  (0 <= 400 * BAT_CELLS * BAT_CALIB_ADC / BAT_CALIB_REAL_VOLTAGE < 32768 ->
   bat_coherent (power_on dw0)) /\
  (bat_coherent s -> bat_coherent (bldc_start_calibration i0 s)) /\
  (bat_coherent s -> bat_coherent (run_ticks ins s)).
Proof.
  split; [| split].
  - intros H. unfold bat_coherent, power_on. cbv zeta.
    cbn [batVoltage batVoltageFixdt].
    set (bat := 400 * BAT_CELLS * BAT_CALIB_ADC / BAT_CALIB_REAL_VOLTAGE) in *.
    rewrite Z.shiftl_mul_pow2 by lia. change (2 ^ 16) with 65536.
    rewrite int32_exact by (change (2 ^ 31) with 2147483648; lia).
    rewrite Z.shiftr_div_pow2 by lia. change (2 ^ 16) with 65536.
    rewrite Z.div_mul by lia. reflexivity.
  - intros H. exact H.
  - revert s. induction ins as [| i ins IH]; intros s H; [exact H |].
    cbn [run_ticks]. apply IH. apply IRQ_bat_coherent. exact H.
Qed.

(** X11: the battery filter runs at a sub-rate: an invocation that is not
    dropped filters the battery sample exactly when the incremented buzzer
    timer is a multiple of 1000; any other invocation, and every dropped
    one, leaves filter state and reading alone. *)
Theorem battery_filter_subrate (i : inputs) (s : bldc_state) :
  let s' := DMA1_Channel1_IRQHandler i s in
  let t := uint32_t (buzzerTimer (buzzer s) + 1) in
  (OverrunFlag s = false -> t mod 1000 = 0 ->
     batVoltageFixdt s' =
       filtLowPass32 (batt1 (adc_buffer i)) BAT_FILT_COEF (batVoltageFixdt s) /\
     batVoltage s' = int16_t (Z.shiftr (batVoltageFixdt s') 16) /\
     buzzerTimer (buzzer s') = t) /\
  (OverrunFlag s = false -> t mod 1000 <> 0 ->
     batVoltageFixdt s' = batVoltageFixdt s /\ batVoltage s' = batVoltage s /\
     buzzerTimer (buzzer s') = t) /\
  (OverrunFlag s = true ->
     batVoltageFixdt s' = batVoltageFixdt s /\ batVoltage s' = batVoltage s /\
     buzzerTimer (buzzer s') = buzzerTimer (buzzer s)).
Proof.
  cbv zeta. split; [| split].
  - intros Hov Ht. destruct (IRQ_aux i s Hov) as (Eb & _ & Hon & _).
    destruct (Hon Ht) as (Ef & Ev).
    rewrite Ef, Ev, Eb, buzzerTimer_wave. repeat split.
  - intros Hov Ht. destruct (IRQ_aux i s Hov) as (Eb & _ & _ & Hoff).
    destruct (Hoff Ht) as (Ef & Ev).
    rewrite Ef, Ev, Eb, buzzerTimer_wave. repeat split.
  - intros Hov. rewrite (IRQ_overrun i s Hov). repeat split.
Qed.

Lemma buzzer_wave_off i b :
  buzzerFreq i = 0 ->
  buzzerPrev (buzzer_wave i b) = 0 /\
  buzzerIdx (buzzer_wave i b) = buzzerIdx b /\
  BUZZER_PIN (buzzer_wave i b) = (if truthy (buzzerPrev b) then false else BUZZER_PIN b).
Proof.
  intros Hf. unfold buzzer_wave. cbv zeta. rewrite Hf. cbn [truthy Z.eqb negb andb].
  unfold truthy. destruct (buzzerPrev b =? 0) eqn:E; cbn.
  - apply Z.eqb_eq in E. repeat split. exact E.
  - repeat split.
Qed.

(** X12: with the buzzer frequency at 0 the buzzer is silenced: after any
    non-empty run of invocations that are not dropped, the pin is low if a
    beep was in progress and untouched otherwise, the beep flag is clear,
    the beep index is kept and the buzzer timer has counted the run. *)
Theorem buzzer_off_silences (ins : list inputs) (s : bldc_state) :
  OverrunFlag s = false ->
  Forall (fun i => buzzerFreq i = 0) ins ->
  ins <> [] ->
  let b := buzzer s in
  let b' := buzzer (run_ticks ins s) in
  buzzerPrev b' = 0 /\
  buzzerIdx b' = buzzerIdx b /\
  BUZZER_PIN b' = (if truthy (buzzerPrev b) then false else BUZZER_PIN b) /\
  buzzerTimer b' = uint32_t (buzzerTimer b + Z.of_nat (length ins)).
Proof.
  revert s. induction ins as [| i ins IH]; intros s Hov Hall Hne; [congruence |].
  cbv zeta. inversion Hall as [| ? ? Hi Hrest]; subst. cbn [run_ticks length].
  destruct (IRQ_aux i s Hov) as (Eb & Ef & _).
  destruct (buzzer_wave_off i (buzzer s) Hi) as (W1 & W2 & W3).
  pose proof (buzzerTimer_wave i (buzzer s)) as W4.
  rewrite <- Eb in W1, W2, W3, W4.
  destruct ins as [| i2 ins].
  - cbn [run_ticks length]. rewrite W1, W2, W3, W4. repeat split.
  - destruct (IH _ Ef Hrest ltac:(discriminate)) as (A1 & A2 & A3 & A4).
    rewrite A1, A2, A3, A4, W1, W2, W3, W4.
    rewrite uint32_add_idemp, Nat2Z.inj_succ.
    replace (buzzerTimer (buzzer s) + 1 + Z.of_nat (length (i2 :: ins)))
      with (buzzerTimer (buzzer s) + Z.succ (Z.of_nat (length (i2 :: ins)))) by lia.
    repeat split.
Qed.

(** *** Calibration on arbitrary samples *)

Lemma channel_sum_app f l1 l2 :
  channel_sum f (l1 ++ l2) = channel_sum f l1 + channel_sum f l2.
Proof.
  unfold channel_sum. induction l1 as [| i l1 IH]; cbn; [reflexivity |].
  rewrite IH. lia.
Qed.

Lemma channel_sum_between f lo hi ins :
  Forall (fun i => lo <= f (adc_buffer i) <= hi) ins ->
  lo * Z.of_nat (length ins) <= channel_sum f ins <= hi * Z.of_nat (length ins).
Proof.
  induction 1 as [| i ins Hi _ IH]; cbn [channel_sum fold_right length].
  - lia.
  - fold (channel_sum f ins). rewrite Nat2Z.inj_succ. lia.
Qed.

Lemma add_sums_app o l1 l2 : add_sums (add_sums o l1) l2 = add_sums o (l1 ++ l2).
Proof.
  unfold add_sums. cbn [offsetrlA offsetrlB offsetrrB offsetrrC offsetdcl offsetdcr].
  rewrite !channel_sum_app. f_equal; lia.
Qed.

Lemma accumulate_exact i o K :
  offsets_within K o -> adc_uint16 (adc_buffer i) -> K + 65535 < 2 ^ 32 ->
  accumulate (adc_buffer i) o = add_sums o [i] /\
  offsets_within (K + 65535) (add_sums o [i]).
Proof.
  intros (H1 & H2 & H3 & H4 & H5 & H6) (A1 & A2 & A3 & A4 & A5 & A6) HK.
  unfold accumulate, add_sums, offsets_within, channel_sum.
  cbn [fold_right offsetrlA offsetrlB offsetrrB offsetrrC offsetdcl offsetdcr].
  rewrite !Z.add_0_r. rewrite !uint32_small by lia.
  split; [reflexivity | lia].
Qed.

Lemma average_exact o K :
  0 < CALIBRATION_SAMPLES -> offsets_within K o -> K < 2 ^ 32 ->
  average o =
    {| offsetrlA := offsetrlA o / CALIBRATION_SAMPLES;
       offsetrlB := offsetrlB o / CALIBRATION_SAMPLES;
       offsetrrB := offsetrrB o / CALIBRATION_SAMPLES;
       offsetrrC := offsetrrC o / CALIBRATION_SAMPLES;
       offsetdcl := offsetdcl o / CALIBRATION_SAMPLES;
       offsetdcr := offsetdcr o / CALIBRATION_SAMPLES |}.
Proof.
  intros HN (H1 & H2 & H3 & H4 & H5 & H6) HK. unfold average.
  assert (D : forall x, 0 <= x <= K -> 0 <= x / CALIBRATION_SAMPLES < 2 ^ 32).
  { intros x Hx. split; [apply Z.div_pos; lia |].
    apply Z.le_lt_trans with x; [| lia].
    apply Z.div_le_upper_bound; [lia | nia]. }
  rewrite !uint32_small by (apply D; assumption). reflexivity.
Qed.

(** Below the target every motionless tick adds its samples, whatever they
    are. *)
Lemma run_accumulate_sums bl br ins :
  forall s c o K,
    calibrating bl br c o s ->
    Forall (sampled bl br) ins ->
    offsets_within K o -> 0 <= K ->
    K + 65535 * Z.of_nat (length ins) < 2 ^ 32 ->
    0 <= c -> c + Z.of_nat (length ins) < CALIBRATION_SAMPLES ->
    CALIBRATION_SAMPLES < 2 ^ 64 ->
    calibrating bl br (c + Z.of_nat (length ins)) (add_sums o ins) (run_ticks ins s) /\
    offsets_within (K + 65535 * Z.of_nat (length ins)) (add_sums o ins).
Proof.
  induction ins as [| i ins IH]; intros s c o K Hcal Hall Hw HK Hfit Hc HcN HN.
  - cbn [length run_ticks Z.of_nat]. rewrite Z.add_0_r, Z.mul_0_r, Z.add_0_r.
    assert (E : add_sums o [] = o).
    { unfold add_sums, channel_sum. cbn [fold_right]. rewrite !Z.add_0_r.
      destruct o; reflexivity. }
    rewrite E. split; assumption.
  - inversion Hall as [| ? ? (Hstill & Hadc) Hrest]; subst.
    cbn [length run_ticks] in *. rewrite Nat2Z.inj_succ in *.
    destruct (IRQ_calibrating_still i s bl br c o Hcal Hstill Hc ltac:(lia))
      as (Eb & Ef & Eh & Em & Hacc & _ & _).
    destruct (Hacc ltac:(lia)) as (Eo & Et).
    destruct (accumulate_exact i o K Hw Hadc ltac:(lia)) as (Ea & Hw1).
    rewrite Ea in Eo.
    assert (Hcal' : calibrating bl br (c + 1) (add_sums o [i])
                      (DMA1_Channel1_IRQHandler i s)).
    { destruct Hcal as (_ & _ & _ & Hl & Hr & _ & _).
      unfold calibrating. rewrite Eh. tauto. }
    destruct (IH _ _ _ _ Hcal' Hrest Hw1 ltac:(lia) ltac:(lia) ltac:(lia)
                 ltac:(lia) HN) as (R1 & R2).
    rewrite add_sums_app in R1, R2. cbn [app] in R1, R2.
    replace (c + Z.succ (Z.of_nat (length ins)))
      with (c + 1 + Z.of_nat (length ins)) by lia.
    replace (K + 65535 * Z.succ (Z.of_nat (length ins)))
      with (K + 65535 + 65535 * Z.of_nat (length ins)) by lia.
    split; assumption.
Qed.

(** X13: from a fresh calibration, without motion or overrun, the tick
    that reaches the sample target leaves in every offset the truncated
    mean of that channel's samples over the whole run, whatever the samples
    are, and binds the run-time tick; each offset therefore lies between
    the smallest and the largest sample of its channel. *)
Theorem calibration_truncated_mean
  (i0 : inputs) (s : bldc_state) (ins : list inputs) :
  0 < CALIBRATION_SAMPLES <= 65536 ->
  buzzerFunc s = isr_nullFunc -> OverrunFlag s = false ->
  Z.of_nat (length ins) = CALIBRATION_SAMPLES ->
  Forall (sampled (sector_left i0) (sector_right i0)) ins ->
  let sN := run_ticks ins (bldc_start_calibration i0 s) in
  offsets sN = sample_means ins /\
  timer_brushless sN = isr_bldc_control /\
  (forall (f : adc_buf_t -> Z) (lo hi : Z),
     Forall (fun i => lo <= f (adc_buffer i) <= hi) ins ->
     lo <= channel_sum f ins / CALIBRATION_SAMPLES <= hi).
Proof.
  intros HN Hb Hov Hlen Hall. cbv zeta.
  pose proof (calibrating_after_start i0 s Hb Hov) as H0.
  set (bl := sector_left i0) in *. set (br := sector_right i0) in *.
  set (s0 := bldc_start_calibration i0 s) in *.
  assert (H32 : 65535 * 65536 < 2 ^ 32) by (cbn; lia).
  split; [| split].
  - destruct (exists_last (l := ins)) as (front & i & E).
    { intros ->. cbn in Hlen. lia. }
    subst ins. rewrite length_app in Hlen. cbn [length] in Hlen.
    apply Forall_app in Hall. destruct Hall as (Hfront & Hlast).
    inversion Hlast as [| ? ? (Hstill & Hadc) _]; subst.
    assert (Hw0 : offsets_within 0 (uniform 0)) by (unfold offsets_within; cbn; lia).
    destruct (run_accumulate_sums bl br front s0 0 (uniform 0) 0 H0 Hfront Hw0
                ltac:(lia) ltac:(nia) ltac:(lia) ltac:(lia)
                ltac:(change (2 ^ 64) with 18446744073709551616; lia))
      as (Hcal & Hw).
    destruct (IRQ_calibrating_still i (run_ticks front s0) bl br _ _ Hcal Hstill
                ltac:(lia) ltac:(change (2 ^ 64) with 18446744073709551616; lia))
      as (_ & _ & _ & _ & _ & Hfin & _).
    destruct (Hfin ltac:(lia)) as (Eo & _).
    rewrite run_ticks_app. cbn [run_ticks]. rewrite Eo.
    destruct (accumulate_exact i _ _ Hw Hadc ltac:(nia)) as (Ea & Hw1).
    rewrite Ea, add_sums_app.
    rewrite add_sums_app in Hw1.
    rewrite (average_exact _ _ ltac:(lia) Hw1 ltac:(nia)).
    unfold sample_means, add_sums, uniform.
    cbn [offsetrlA offsetrlB offsetrrB offsetrrC offsetdcl offsetdcr].
    reflexivity.
  - destruct (exists_last (l := ins)) as (front & i & E).
    { intros ->. cbn in Hlen. lia. }
    subst ins. rewrite length_app in Hlen. cbn [length] in Hlen.
    apply Forall_app in Hall. destruct Hall as (Hfront & Hlast).
    inversion Hlast as [| ? ? (Hstill & Hadc) _]; subst.
    assert (Hw0 : offsets_within 0 (uniform 0)) by (unfold offsets_within; cbn; lia).
    destruct (run_accumulate_sums bl br front s0 0 (uniform 0) 0 H0 Hfront Hw0
                ltac:(lia) ltac:(nia) ltac:(lia) ltac:(lia)
                ltac:(change (2 ^ 64) with 18446744073709551616; lia))
      as (Hcal & Hw).
    destruct (IRQ_calibrating_still i (run_ticks front s0) bl br _ _ Hcal Hstill
                ltac:(lia) ltac:(change (2 ^ 64) with 18446744073709551616; lia))
      as (_ & _ & _ & _ & _ & Hfin & _).
    destruct (Hfin ltac:(lia)) as (_ & Et).
    rewrite run_ticks_app. cbn [run_ticks]. exact Et.
  - intros f lo hi Hf.
    pose proof (channel_sum_between f lo hi ins Hf) as B. rewrite Hlen in B.
    split.
    + apply Z.div_le_lower_bound; lia.
    + apply Z.div_le_upper_bound; lia.
Qed.

(** *** Calibration under overrun and after a restart *)

(** A dropped tick during calibration counts but does not sample. *)
Lemma dropped_tick_calibrating i s bl br c o :
  calibrating bl br c o s -> 0 <= c -> c + 1 < 2 ^ 64 ->
  calibrating bl br (c + 1) o (dropped_tick i s).
Proof.
  intros (Ht & Hb & Hov & Hl & Hr & Hc & Ho) Hc0 Hc64.
  unfold dropped_tick.
  rewrite (IRQ_overrun i (set_OverrunFlag true s) eq_refl).
  unfold calibrating. cbn. rewrite Hc, uint64_small by lia. tauto.
Qed.

(** X14: an accumulating calibration tick that is dropped by the overrun
    guard loses its sample but not its count: on constant input [V] the
    tick that reaches the target divides one sample less than the target,
    so every offset ends at (N - 1) * V / N instead of [V]. *)
Theorem dropped_sample_is_lost
  (V : Z) (i0 id : inputs) (s : bldc_state) (ins1 ins2 : list inputs) :
  0 < CALIBRATION_SAMPLES < 2 ^ 64 ->
  0 <= V -> CALIBRATION_SAMPLES * V < 2 ^ 32 ->
  buzzerFunc s = isr_nullFunc -> OverrunFlag s = false ->
  ins2 <> [] ->
  Z.of_nat (length ins1) + 1 + Z.of_nat (length ins2) = CALIBRATION_SAMPLES ->
  Forall (steady (sector_left i0) (sector_right i0) V) ins1 ->
  Forall (steady (sector_left i0) (sector_right i0) V) ins2 ->
  let s0 := bldc_start_calibration i0 s in
  let sN := run_ticks ins2 (dropped_tick id (run_ticks ins1 s0)) in
  offsets sN = uniform ((CALIBRATION_SAMPLES - 1) * V / CALIBRATION_SAMPLES) /\
  timer_brushless sN = isr_bldc_control /\
  mainCounter sN = CALIBRATION_SAMPLES.
Proof.
  intros HN HV HNV Hb Hov Hne Hlen H1 H2. cbv zeta.
  pose proof (calibrating_after_start i0 s Hb Hov) as H0.
  set (bl := sector_left i0) in *. set (br := sector_right i0) in *.
  set (s0 := bldc_start_calibration i0 s) in *.
  destruct (exists_last Hne) as (front & i & E). subst ins2.
  rewrite length_app in Hlen. cbn [length] in Hlen.
  apply Forall_app in H2. destruct H2 as (Hfront & Hlast).
  inversion Hlast as [| ? ? Hi _]; subst.
  pose proof (run_accumulate bl br V ins1 s0 0 0 H0 H1
                ltac:(lia) ltac:(lia) ltac:(lia) ltac:(lia) HV ltac:(nia)) as R1.
  pose proof (dropped_tick_calibrating id _ bl br _ _ R1 ltac:(lia) ltac:(lia)) as R2.
  pose proof (run_accumulate bl br V front _ _ _ R2 Hfront
                ltac:(lia) ltac:(lia) ltac:(lia) ltac:(nia) HV ltac:(nia)) as R3.
  replace (0 + Z.of_nat (length ins1) + 1 + Z.of_nat (length front))
    with (CALIBRATION_SAMPLES - 1) in R3 by lia.
  rewrite run_ticks_app. cbn [run_ticks].
  destruct (IRQ_finalize i _ bl br _ V R3 Hi HN ltac:(nia) HV ltac:(nia))
    as ((Et & _ & _ & Eo) & Em).
  rewrite Eo, Et, Em.
  replace (0 + Z.of_nat (length ins1) * V + Z.of_nat (length front) * V + V)
    with ((CALIBRATION_SAMPLES - 1) * V) by nia.
  repeat split.
Qed.

(** X15: a calibration that restarts on a sector change over-counts: the
    restart tick samples while the counter is at 0, so on constant input
    [V] the tick that reaches the target divides one sample more than the
    target and every offset ends at V + V / N. *)
Theorem restart_divides_one_sample_more
  (V : Z) (i : inputs) (s : bldc_state) (ins : list inputs) :
  0 < CALIBRATION_SAMPLES < 2 ^ 64 ->
  0 <= V -> (CALIBRATION_SAMPLES + 1) * V < 2 ^ 32 ->
  timer_brushless s = isr_calibration_func ->
  buzzerFunc s = isr_nullFunc -> OverrunFlag s = false ->
  sector_left i <> pos_0_0 (hall s) \/ sector_right i <> pos_1_0 (hall s) ->
  Forall (steady (sector_left i) (sector_right i) V) (i :: ins) ->
  Z.of_nat (length ins) = CALIBRATION_SAMPLES ->
  let sN := run_ticks (i :: ins) s in
  offsets sN = uniform (V + V / CALIBRATION_SAMPLES) /\
  timer_brushless sN = isr_bldc_control.
Proof.
  intros HN HV HNV Ht Hb Hov Hmv Hall Hlen. cbv zeta.
  apply moved_true_iff in Hmv.
  destruct (restart_then_constant_input V i s ins HN HV HNV Ht Hb Hov Hmv Hall Hlen)
    as (Et & _ & _ & Eo).
  rewrite Eo, Et.
  replace ((CALIBRATION_SAMPLES + 1) * V) with (V + V * CALIBRATION_SAMPLES) by lia.
  rewrite Z.div_add by lia.
  split; [f_equal; lia | reflexivity].
Qed.

(** *** From calibration to control *)

Lemma after_handlers_drive i s2 : drive_state (after_handlers i s2) = drive_state s2.
Proof.
  unfold after_handlers. cbv zeta.
  match goal with |- context [if ?b then _ else _] => destruct b end; reflexivity.
Qed.

(** The drive after an interrupt of the run-time phase is the one
    [bldc_control] computes from the state with the tick counted. *)
Lemma IRQ_controlling_drive i s o :
  controlling o s ->
  exists pre,
    offsets pre = o /\
    drive_state (DMA1_Channel1_IRQHandler i s) = drive_state (bldc_control i pre).
Proof.
  intros (Ht & Hb & Hov & Ho).
  destruct (IRQ_shape i s Hov) as (s2 & E & _ & _ & _ & _ & Es2).
  exists (set_OverrunFlag true
            (set_mainCounter (uint64_t (mainCounter s + 1))
               (set_DMA1_IFCR DMA_IFCR_CTCIF1 s))).
  split; [exact Ho |].
  rewrite E, after_handlers_drive, (Es2 Hb), Ht. reflexivity.
Qed.

(** X16: after a calibration on the constant level [V], the currents of
    the first and of every later control tick are the deviations of the raw
    samples from [V]: zero at the calibration level, positive below it. *)
Theorem calibrated_currents_are_deviations
  (V : Z) (i0 : inputs) (s : bldc_state) (ins more : list inputs)
  (i : inputs) (m : motor) :
  0 < CALIBRATION_SAMPLES < 2 ^ 64 ->
  0 <= V -> CALIBRATION_SAMPLES * V < 2 ^ 32 ->
  buzzerFunc s = isr_nullFunc -> OverrunFlag s = false ->
  Z.of_nat (length ins) = CALIBRATION_SAMPLES ->
  Forall (steady (sector_left i0) (sector_right i0) V) ins ->
  let sN := run_ticks (ins ++ more) (bldc_start_calibration i0 s) in
  let s' := DMA1_Channel1_IRQHandler i sN in
  let '(a1, a2, a3) := raw_of m (adc_buffer i) in
  in_int16 (V - a1) -> in_int16 (V - a2) -> in_int16 (V - a3) ->
  cur_of m (cur s') = (V - a1, V - a2, V - a3) /\
  (i_phaAB (rtU (rtM_of m s')), i_phaBC (rtU (rtM_of m s')),
   i_DCLink (rtU (rtM_of m s'))) = (V - a1, V - a2, V - a3).
Proof.
  intros HN HV HNV Hb Hov Hlen Hall. cbv zeta.
  rewrite run_ticks_app.
  set (s0 := bldc_start_calibration i0 s).
  pose proof (calibrating_after_start i0 s Hb Hov) as H0. fold s0 in H0.
  replace CALIBRATION_SAMPLES with (0 + CALIBRATION_SAMPLES * 1) in HNV by lia.
  pose proof (run_to_finalize _ _ V ins s0 0 H0 Hall Hlen HN ltac:(lia) HV
                ltac:(lia)) as Hc.
  replace ((0 + CALIBRATION_SAMPLES * V) / CALIBRATION_SAMPLES) with V in Hc
    by (rewrite Z.add_0_l, Z.mul_comm, Z.div_mul; lia).
  pose proof (run_controlling _ more _ Hc) as Hc'.
  destruct (IRQ_controlling_drive i _ _ Hc') as (pre & Eo & Ed).
  pose proof (bldc_control_rtU i pre m) as C. cbv zeta in C.
  rewrite Eo in C.
  assert (Ecur : cur_of m (cur (DMA1_Channel1_IRQHandler i
                                  (run_ticks more (run_ticks ins s0)))) =
                 cur_of m (cur (bldc_control i pre))).
  { unfold drive_state in Ed. destruct m; cbn [cur_of]; congruence. }
  assert (ErtU : rtU (rtM_of m (DMA1_Channel1_IRQHandler i
                                  (run_ticks more (run_ticks ins s0)))) =
                 rtU (rtM_of m (bldc_control i pre))).
  { unfold drive_state in Ed. destruct m; cbn [rtM_of]; congruence. }
  rewrite Ecur, ErtU.
  assert (Eu : offsets_of m (uniform V) = (V, V, V)) by (destruct m; reflexivity).
  rewrite Eu in C.
  destruct (raw_of m (adc_buffer i)) as [[a1 a2] a3].
  intros R1 R2 R3.
  destruct C as (_ & E1 & E2 & E3 & Ec & _).
  rewrite Ec, E1, E2, E3.
  rewrite !int16_of_uint32_exact by assumption. split; reflexivity.
Qed.

(** X17: with a constant beep count [n] the beep index never leaves
    [0, n + 2] and the beep flag stays 0 or 1, across any run of
    interrupts, dropped or not. *)
Theorem buzzer_index_bounded (n : Z) (ins : list inputs) (s : bldc_state) :
  0 <= n ->
  Forall (fun i => buzzerCount i = n) ins ->
  0 <= buzzerIdx (buzzer s) <= n + 2 ->
  buzzerPrev (buzzer s) = 0 \/ buzzerPrev (buzzer s) = 1 ->
  let b' := buzzer (run_ticks ins s) in
  0 <= buzzerIdx b' <= n + 2 /\ (buzzerPrev b' = 0 \/ buzzerPrev b' = 1).
Proof.
  intros Hn. revert s.
  induction ins as [| i ins IH]; intros s Hall Hidx Hprev; cbv zeta.
  - cbn. split; assumption.
  - inversion Hall as [| ? ? Hi Hrest]; subst. cbn [run_ticks].
    apply IH; [exact Hrest | |].
    + destruct (OverrunFlag s) eqn:Hov.
      * rewrite (IRQ_overrun i s Hov). exact Hidx.
      * destruct (IRQ_aux i s Hov) as (Eb & _). rewrite Eb.
        unfold buzzer_wave. cbv zeta.
        pose proof (wrap_range 8 (buzzerIdx (buzzer s) + 1) ltac:(lia)) as W.
        fold (uint8_t (buzzerIdx (buzzer s) + 1)) in W.
        destruct (truthy (buzzerFreq i) && _).
        -- destruct (buzzerPrev (buzzer s) =? 0); [| exact Hidx].
           cbn [buzzerIdx].
           destruct (uint8_t (buzzerIdx (buzzer s) + 1) >? buzzerCount i + 2) eqn:G.
           ++ lia.
           ++ rewrite Z.gtb_ltb in G. apply Z.ltb_ge in G. lia.
        -- destruct (truthy (buzzerPrev (buzzer s))); exact Hidx.
    + destruct (OverrunFlag s) eqn:Hov.
      * rewrite (IRQ_overrun i s Hov). exact Hprev.
      * destruct (IRQ_aux i s Hov) as (Eb & _). rewrite Eb.
        unfold buzzer_wave. cbv zeta.
        destruct (truthy (buzzerFreq i) && _).
        -- destruct (buzzerPrev (buzzer s) =? 0); [right; reflexivity | exact Hprev].
        -- destruct (truthy (buzzerPrev (buzzer s))); [left; reflexivity | exact Hprev].
Qed.

End InterruptPhases.

(** ** Further bench runs *)

(** 850 counts under the calibrated offset of 2000 on the left DC link. *)
Lemma currents_are_offset_minus_sample_bench :
  in_int16 (2000 - 1150) /\
  curL_DC (cur (@bldc_control bench bench_at_ceiling bench_run)) = 850.
Proof.
  split; [unfold in_int16; lia |].
  pose proof (@currents_are_offset_minus_sample bench bench_at_ceiling bench_run Left)
    as H.
  vm_compute in H. destruct H as (_ & _ & _ & E3 & _).
  vm_compute. apply E3. split; discriminate.
Defined.

Lemma stored_sector_is_decoded_bench :
  @sector_left bench bench_turned = 5 /\
  pos_0_0 (hall (@bldc_control bench bench_turned bench_run)) = 5.
Proof.
  split; [reflexivity |].
  exact (proj1 (@stored_sector_is_decoded bench bench_turned bench_run Left)).
Defined.

(** A duty of 500 on the left FOC motor lands at 1500. *)
Lemma duty_window_pass_through_bench :
  2 * 110 <= @pwm_res bench /\
  CCR_U (LEFT_TIM (@bldc_control bench bench_rest bench_run)) = 1500.
Proof.
  assert (Hr : 2 * 110 <= @pwm_res bench) by (vm_compute; discriminate).
  split; [exact Hr |].
  destruct (@duty_window_pass_through bench bench_rest bench_run Left Hr) as (H & _).
  apply H. vm_compute. split; discriminate.
Defined.

(** Bit 4 of the dead-time field survives the gate. *)
Lemma gate_keeps_other_BDTR_bits_bench :
  Z.testbit (BDTR (LEFT_TIM (bench_dead_time bench_run))) 4 = true /\
  Z.testbit (BDTR (LEFT_TIM
    (@bldc_control bench (bench_level 0) (bench_dead_time bench_run)))) 4 = true.
Proof.
  split; [reflexivity |].
  apply (eq_trans (@gate_keeps_other_BDTR_bits bench (bench_level 0)
                     (bench_dead_time bench_run) Left 4
                     ltac:(vm_compute; split; [discriminate | reflexivity])
                     ltac:(lia) eq_refl)).
  reflexivity.
Defined.

Lemma guard_held_locks_out_bench :
  @mainCounter bench
    (@run_ticks bench [bench_rest; bench_turned; bench_rest]
       (set_OverrunFlag true bench_cal2)) = 5 /\
  @offsets bench
    (@run_ticks bench [bench_rest; bench_turned; bench_rest]
       (set_OverrunFlag true bench_cal2)) = uniform 4000.
Proof.
  destruct (@guard_held_locks_out bench [bench_rest; bench_turned; bench_rest]
              (set_OverrunFlag true bench_cal2) eq_refl)
    as (Hm & _ & Ho & _).
  - vm_compute. split; [discriminate | reflexivity].
  - split; [vm_compute in Hm; vm_compute; exact Hm | vm_compute in Ho; vm_compute; exact Ho].
Defined.

Lemma bench_run_controlling : @controlling bench (uniform 2000) bench_run.
Proof. vm_compute. repeat split. Defined.

Lemma control_phase_is_permanent_bench :
  @offsets bench (@run_ticks bench [bench_turned; bench_at_ceiling] bench_run)
    = uniform 2000 /\
  @mainCounter bench (@run_ticks bench [bench_turned; bench_at_ceiling] bench_run) = 6.
Proof.
  destruct (@control_phase_is_permanent bench (uniform 2000)
              [bench_turned; bench_at_ceiling] bench_run bench_run_controlling)
    as (Ho & _ & _ & Hm).
  - vm_compute. split; [discriminate | reflexivity].
  - split; [exact Ho | vm_compute in Hm; vm_compute; exact Hm].
Defined.

(** Three of four calibration ticks: nothing has been driven yet. *)
Lemma no_actuation_before_control_bench :
  @timer_brushless bench bench_cal3 = isr_calibration_func /\
  @drive_state bench bench_cal3 = @drive_state bench bench_cal0.
Proof.
  split; [reflexivity |].
  apply (@no_actuation_before_control bench [bench_rest; bench_rest; bench_rest] bench_cal0).
  - reflexivity.
  - reflexivity.
  - vm_compute. discriminate.
Defined.

(** The left rotor chatters between sectors 5 and 0 after one step. *)
Lemma chatter_never_counts_bench :
  steps_0 (hall bench_stepped) = 1 /\
  steps_0 (hall (@run_ticks bench
                   [bench_rest; bench_turned; bench_rest; bench_turned]
                   bench_stepped)) = 1.
Proof.
  split; [reflexivity |].
  destruct (@chatter_never_counts bench Left 5 0 (uniform 2000)
              [bench_rest; bench_turned; bench_rest; bench_turned] bench_stepped)
    as (H & _).
  - vm_compute. repeat split.
  - left. split; reflexivity.
  - repeat (apply Forall_cons; [first [left; reflexivity | right; reflexivity] |]).
    apply Forall_nil.
  - exact H.
Defined.

Lemma battery_reading_coherent_bench :
  @bat_coherent bench bench_on /\ @bat_coherent bench bench_run.
Proof.
  destruct (@battery_reading_coherent bench 0 bench_rest
              [bench_rest; bench_rest; bench_rest; bench_rest] bench_cal0)
    as (Hon & Hstart & Hrun).
  split.
  - apply Hon. vm_compute. split; [discriminate | reflexivity].
  - apply Hrun. vm_compute. reflexivity.
Defined.

(** The third completed tick is no multiple of 1000. *)
Lemma battery_filter_subrate_bench :
  @OverrunFlag bench bench_cal2 = false /\
  @batVoltageFixdt bench (@DMA1_Channel1_IRQHandler bench bench_rest bench_cal2)
    = batVoltageFixdt bench_cal2.
Proof.
  split; [reflexivity |].
  destruct (@battery_filter_subrate bench bench_rest bench_cal2) as (_ & H & _).
  apply H; [reflexivity | vm_compute; discriminate].
Defined.

Lemma buzzer_off_silences_bench :
  BUZZER_PIN (buzzer (@run_ticks bench [bench_rest; bench_rest] bench_on)) = false /\
  buzzerTimer (buzzer (@run_ticks bench [bench_rest; bench_rest] bench_on)) = 2.
Proof.
  destruct (@buzzer_off_silences bench [bench_rest; bench_rest] bench_on)
    as (_ & _ & Hp & Ht).
  - reflexivity.
  - repeat (apply Forall_cons; [reflexivity |]). apply Forall_nil.
  - discriminate.
  - split; [exact Hp | exact Ht].
Defined.

Lemma buzzer_index_bounded_bench :
  0 <= buzzerIdx (buzzer (@run_ticks bench [bench_rest; bench_rest] bench_on)) <= 0 + 2.
Proof.
  apply (@buzzer_index_bounded bench 0 [bench_rest; bench_rest] bench_on).
  - lia.
  - repeat (apply Forall_cons; [reflexivity |]). apply Forall_nil.
  - cbn. lia.
  - left. reflexivity.
Defined.

Lemma bench_level_sampled V :
  0 <= V < 65536 ->
  @sampled bench (@sector_left bench bench_rest) (@sector_right bench bench_rest)
    (bench_level V).
Proof.
  intros H. split; [split; reflexivity |]. unfold adc_uint16. cbn. tauto.
Defined.

(** Four samples of 2000, 2001, 2002 and 2004 counts: the mean 2001.75 is
    truncated to 2001. *)
Lemma calibration_truncated_mean_bench :
  @offsets bench
    (@run_ticks bench [bench_level 2000; bench_level 2001; bench_level 2002;
                       bench_level 2004] bench_cal0) = uniform 2001.
Proof.
  destruct (@calibration_truncated_mean bench bench_rest bench_on
              [bench_level 2000; bench_level 2001; bench_level 2002; bench_level 2004])
    as (H & _).
  - cbn. lia.
  - reflexivity.
  - reflexivity.
  - reflexivity.
  - repeat (apply Forall_cons; [apply bench_level_sampled; lia |]). apply Forall_nil.
  - exact H.
Defined.

(** The second of four calibration ticks is dropped: three samples of 2000
    are divided by four. *)
Lemma dropped_sample_is_lost_bench :
  @offsets bench
    (@run_ticks bench [bench_rest; bench_rest]
       (@dropped_tick bench bench_rest (@run_ticks bench [bench_rest] bench_cal0)))
  = uniform 1500.
Proof.
  destruct (@dropped_sample_is_lost bench 2000 bench_rest bench_rest bench_on
              [bench_rest] [bench_rest; bench_rest]) as (H & _).
  - cbn. lia.
  - lia.
  - cbn. lia.
  - reflexivity.
  - reflexivity.
  - discriminate.
  - reflexivity.
  - apply Forall_cons; [exact bench_rest_steady | apply Forall_nil].
  - repeat (apply Forall_cons; [exact bench_rest_steady |]). apply Forall_nil.
  - exact H.
Defined.

Lemma bench_turned_steady :
  @steady bench (@sector_left bench bench_turned) (@sector_right bench bench_turned)
    2000 bench_turned.
Proof. vm_compute. repeat split. Defined.

(** A restart after two ticks, then four more ticks at 2000 counts. *)
Lemma restart_divides_one_sample_more_bench :
  @offsets bench
    (@run_ticks bench
       [bench_turned; bench_turned; bench_turned; bench_turned; bench_turned]
       bench_cal2)
  = uniform (2000 + 2000 / 4).
Proof.
  destruct (@restart_divides_one_sample_more bench 2000 bench_turned bench_cal2
              [bench_turned; bench_turned; bench_turned; bench_turned]) as (H & _).
  - cbn. lia.
  - lia.
  - cbn. lia.
  - reflexivity.
  - reflexivity.
  - reflexivity.
  - left. vm_compute. discriminate.
  - repeat (apply Forall_cons; [exact bench_turned_steady |]). apply Forall_nil.
  - reflexivity.
  - exact H.
Defined.

(** Calibrated at 2000, then a tick at 1150 counts: 850 on every current. *)
Lemma calibrated_currents_are_deviations_bench :
  cur_of Left
    (cur (@DMA1_Channel1_IRQHandler bench bench_at_ceiling bench_run))
  = (850, 850, 850).
Proof.
  pose proof (@calibrated_currents_are_deviations bench 2000 bench_rest bench_on
                [bench_rest; bench_rest; bench_rest; bench_rest] []
                bench_at_ceiling Left) as H.
  cbv zeta in H. cbn [raw_of] in H.
  destruct H as (Hc & _).
  - cbn. lia.
  - lia.
  - cbn. lia.
  - reflexivity.
  - reflexivity.
  - reflexivity.
  - repeat (apply Forall_cons; [exact bench_rest_steady |]). apply Forall_nil.
  - unfold in_int16. cbn. lia.
  - unfold in_int16. cbn. lia.
  - unfold in_int16. cbn. lia.
  - exact Hc.
Defined.

(** * Restart and overrun during calibration, as the code has them *)

Section CalibrationHazards.

Context {pf : Platform}.

(** C7, as the code behaves: a calibration tick that sees a sector change
    resets the six accumulators and the tick counter and re-reads the
    baselines, but then falls through to the accumulation with the counter
    at 0, so the sample [Y] that was in the buffer on the restart tick is
    kept: the tick ends with every accumulator at [Y], and after the [N]
    following ticks at [V] every offset is V + Y / N, where a fresh
    calibration on those same ticks gives [V]. *)
Theorem restart_keeps_restart_tick_sample
  (Y V : Z) (i : inputs) (s : bldc_state) (ins : list inputs) :
  0 < CALIBRATION_SAMPLES < 2 ^ 64 ->
  0 <= Y -> 0 <= V -> Y + CALIBRATION_SAMPLES * V < 2 ^ 32 ->
  timer_brushless s = isr_calibration_func ->
  buzzerFunc s = isr_nullFunc -> OverrunFlag s = false ->
  sector_left i <> pos_0_0 (hall s) \/ sector_right i <> pos_1_0 (hall s) ->
  steady (sector_left i) (sector_right i) Y i ->
  Forall (steady (sector_left i) (sector_right i) V) ins ->
  Z.of_nat (length ins) = CALIBRATION_SAMPLES ->
  let s1 := DMA1_Channel1_IRQHandler i s in
  let sN := run_ticks ins s1 in
  (mainCounter s1 = 0 /\ offsets s1 = uniform Y /\
   timer_brushless s1 = isr_calibration_func) /\
  (offsets sN = uniform (V + Y / CALIBRATION_SAMPLES) /\
   timer_brushless sN = isr_bldc_control) /\
  offsets (run_ticks ins (bldc_start_calibration i s1)) = uniform V.
Proof.
  intros HN HY HV HYV Ht Hb Hov Hmv Hi Hall Hlen. cbv zeta.
  apply moved_true_iff in Hmv.
  destruct (IRQ_calibrating_moved i s ltac:(lia) Ht Hb Hov Hmv)
    as (Em & Eo & Eh & Et & Eb & Ef).
  destruct Hi as (_ & HA & HB & HC & HD & HE & HF).
  rewrite (accumulate_uniform _ 0 Y HA HB HC HD HE HF) in Eo by nia.
  rewrite Z.add_0_l in Eo.
  assert (Hcal : calibrating (sector_left i) (sector_right i) 0 (uniform Y)
                   (DMA1_Channel1_IRQHandler i s)).
  { unfold calibrating. rewrite Et, Eb, Ef, Eh, Em, Eo. cbn. tauto. }
  split; [repeat split; assumption |].
  split.
  - destruct (run_to_finalize _ _ V ins _ Y Hcal Hall Hlen HN HY HV HYV)
      as (Ft & _ & _ & Fo).
    rewrite Fo, Ft.
    replace (Y + CALIBRATION_SAMPLES * V) with (Y + V * CALIBRATION_SAMPLES) by lia.
    rewrite Z.div_add by lia.
    split; [f_equal; lia | reflexivity].
  - pose proof (calibrating_after_start i _ Eb Ef) as H0.
    destruct (run_to_finalize _ _ V ins _ 0 H0 Hall Hlen HN ltac:(lia) HV ltac:(nia))
      as (_ & _ & _ & Fo).
    rewrite Fo. rewrite Z.add_0_l, Z.mul_comm, Z.div_mul by lia. reflexivity.
Qed.

(** *** The target tick dropped by the overrun guard *)

Lemma calibration_func_split i s :
  calibration_func i s = calibration_count i (calibration_restart_check i s).
Proof. reflexivity. Qed.





End CalibrationHazards.

(** ** Bench runs of the calibration hazards *)

Lemma bench_turned_level_steady V :
  @steady bench (@sector_left bench (bench_turned_level 3000))
    (@sector_right bench (bench_turned_level 3000)) V (bench_turned_level V).
Proof. unfold steady, still. cbn. repeat split. Defined.

(** A restart after two ticks with 3000 counts in the buffer, then four
    ticks at 2000 counts: 2750 where a fresh calibration gives 2000. *)
Lemma restart_keeps_restart_tick_sample_bench :
  @sector_left bench (bench_turned_level 3000) <> pos_0_0 (hall bench_cal2) /\
  @offsets bench
    (@run_ticks bench
       [bench_turned_level 2000; bench_turned_level 2000;
        bench_turned_level 2000; bench_turned_level 2000]
       (@DMA1_Channel1_IRQHandler bench (bench_turned_level 3000) bench_cal2))
  = uniform (2000 + 3000 / 4) /\
  @offsets bench
    (@run_ticks bench
       [bench_turned_level 2000; bench_turned_level 2000;
        bench_turned_level 2000; bench_turned_level 2000]
       (@bldc_start_calibration bench (bench_turned_level 3000)
          (@DMA1_Channel1_IRQHandler bench (bench_turned_level 3000) bench_cal2)))
  = uniform 2000.
Proof.
  assert (Hm : @sector_left bench (bench_turned_level 3000) <> pos_0_0 (hall bench_cal2))
    by (vm_compute; discriminate).
  split; [exact Hm |].
  destruct (@restart_keeps_restart_tick_sample bench 3000 2000
              (bench_turned_level 3000) bench_cal2
              [bench_turned_level 2000; bench_turned_level 2000;
               bench_turned_level 2000; bench_turned_level 2000])
    as (_ & (Ho & _) & Hf).
  - vm_compute. split; reflexivity.
  - lia.
  - lia.
  - vm_compute. reflexivity.
  - reflexivity.
  - reflexivity.
  - reflexivity.
  - left. exact Hm.
  - exact (bench_turned_level_steady 3000).
  - repeat (apply Forall_cons; [exact (bench_turned_level_steady 2000) |]).
    apply Forall_nil.
  - reflexivity.
  - split; [exact Ho | exact Hf].
Defined.


